(** * Child-presence alert system: persistence and alert engine

    A shallow embedding of [FINALEVERYTHING2.ino]: the temperature-adjusted
    threshold calculator, the two interrupt service routines and the bodies
    of [motionDetectionTask], [temperatureTask], [alertLedTask] and
    [displayTask], together with the properties of the persistence counter,
    the stop interlock and the alert command that the design document
    states, and further properties of the calculator and of the tasks.

    Conventions.
    - [uint8_t] and [uint32_t] values are integers of [Z]; every place where
      the C++ code can wrap is written with [u8] or [u32].
    - [float] is IEEE-754 binary32 and [double] is binary64, as on the ESP32
      the sketch is written for; both are taken from the standard library's
      executable specification [SpecFloat] (round to nearest, ties to even),
      and every operation is rounded to the format of its C++ type.
    - Global variables are the fields of [Globals]; a function that writes a
      global takes the record and returns the updated one.
    - An interrupt service routine, an iteration of a task and the status
      report of [loop] are the steps of a run: each one is taken as a whole,
      in any order and at any time. *)

From Stdlib Require Import ZArith Bool List Lia String.
From Stdlib Require Import Floats.SpecFloat.
From Stdlib Require Import DecimalString.
Import ListNotations.
Open Scope Z_scope.

(** ** Machine integers *)

Definition u8 (z : Z) : Z := z mod 256.
Definition u32 (z : Z) : Z := z mod 4294967296.

(** ** Floating point *)

Module Fp.

Definition float := spec_float.

(** [float] operations (binary32). *)
Definition f32_of_Z (z : Z) : float := binary_normalize 24 128 z 0 false.
Definition f32_sub : float -> float -> float := SFsub 24 128.
Definition f32_mul : float -> float -> float := SFmul 24 128.
Definition f32_div : float -> float -> float := SFdiv 24 128.

(** [double] operations (binary64). *)
Definition f64_of_Z (z : Z) : float := binary_normalize 53 1024 z 0 false.
Definition f64_sub : float -> float -> float := SFsub 53 1024.
Definition f64_mul : float -> float -> float := SFmul 53 1024.
Definition f64_div : float -> float -> float := SFdiv 53 1024.

(** Implicit conversions between the two formats. *)
Definition f64_of_f32 (x : float) : float :=
  match x with
  | S754_finite s m e => binary_normalize 53 1024 (cond_Zopp s (Zpos m)) e s
  | _ => x
  end.

Definition f32_of_f64 (x : float) : float :=
  match x with
  | S754_finite s m e => binary_normalize 24 128 (cond_Zopp s (Zpos m)) e s
  | _ => x
  end.

(** The comparisons of C++: false as soon as one side is a NaN. *)
Definition ge (x y : float) : bool := SFleb y x.
Definition gt (x y : float) : bool := SFltb y x.

(** Truncation toward zero, the value part of a cast to an integer type. *)
Definition trunc (x : float) : Z :=
  match x with
  | S754_finite s m e =>
      cond_Zopp s
        (match e with
         | Zneg p => Z.shiftr (Zpos m) (Zpos p)
         | _ => Z.shiftl (Zpos m) e
         end)
  | _ => 0
  end.

(** [(uint8_t) x].  The cast is defined by C++ only when the truncated value
    is in [0, 255]; outside of it (and on NaN and infinities) the model
    picks the wrapped value, and [calculated_in_range] below shows that the
    calculator never gets there. *)
Definition to_u8 (x : float) : Z := u8 (trunc x).

(** The decimal literals of the source, as the compiler rounds them. *)
Definition d1_0 : float := f64_of_Z 1.
Definition d0_5 : float := f64_div (f64_of_Z 1) (f64_of_Z 2).
Definition d0_3 : float := f64_div (f64_of_Z 3) (f64_of_Z 10).

End Fp.

Import Fp.

(** ** Constants of the sketch *)

Definition COUNTER_UPDATE_INTERVAL : Z := 6000.
Definition PIR_DETECTION_WINDOW : Z := 5500.
Definition MAX_PERSISTENCE_COUNTER : Z := 20.
Definition MIN_COUNTER_FOR_ALERT : Z := 1.

Definition BASE_SLOW_BLINK_COUNTER : Z := 5.
Definition BASE_MEDIUM_BLINK_COUNTER : Z := 8.
Definition BASE_FAST_BLINK_COUNTER : Z := 12.
Definition BASE_CRITICAL_BLINK_COUNTER : Z := 16.

Definition COMFORTABLE_TEMP : float := f32_of_f64 (f64_of_Z 22).
Definition HOT_TEMP_THRESHOLD : float := f32_of_f64 (f64_of_Z 30).
Definition CRITICAL_TEMP_THRESHOLD : float := f32_of_f64 (f64_of_Z 35).

(** ** Global variables *)

Record Globals := mkGlobals {
  pirTriggered : bool;
  stopButtonPressed : bool;
  lastPirTrigger : Z;
  motionPersistenceCounter : Z;
  lastCounterUpdate : Z;
  alertSystemStopped : bool;
  currentTemperature : float;
  currentHumidity : float;
  temperatureDataValid : bool;
  ALERT_STOP_THRESHOLD : Z
}.

Definition set_pirTriggered (b : bool) (g : Globals) : Globals :=
  mkGlobals b (stopButtonPressed g) (lastPirTrigger g)
    (motionPersistenceCounter g) (lastCounterUpdate g) (alertSystemStopped g)
    (currentTemperature g) (currentHumidity g) (temperatureDataValid g)
    (ALERT_STOP_THRESHOLD g).

Definition set_stopButtonPressed (b : bool) (g : Globals) : Globals :=
  mkGlobals (pirTriggered g) b (lastPirTrigger g)
    (motionPersistenceCounter g) (lastCounterUpdate g) (alertSystemStopped g)
    (currentTemperature g) (currentHumidity g) (temperatureDataValid g)
    (ALERT_STOP_THRESHOLD g).

Definition set_lastPirTrigger (t : Z) (g : Globals) : Globals :=
  mkGlobals (pirTriggered g) (stopButtonPressed g) t
    (motionPersistenceCounter g) (lastCounterUpdate g) (alertSystemStopped g)
    (currentTemperature g) (currentHumidity g) (temperatureDataValid g)
    (ALERT_STOP_THRESHOLD g).

Definition set_motionPersistenceCounter (c : Z) (g : Globals) : Globals :=
  mkGlobals (pirTriggered g) (stopButtonPressed g) (lastPirTrigger g)
    c (lastCounterUpdate g) (alertSystemStopped g)
    (currentTemperature g) (currentHumidity g) (temperatureDataValid g)
    (ALERT_STOP_THRESHOLD g).

Definition set_lastCounterUpdate (t : Z) (g : Globals) : Globals :=
  mkGlobals (pirTriggered g) (stopButtonPressed g) (lastPirTrigger g)
    (motionPersistenceCounter g) t (alertSystemStopped g)
    (currentTemperature g) (currentHumidity g) (temperatureDataValid g)
    (ALERT_STOP_THRESHOLD g).

Definition set_alertSystemStopped (b : bool) (g : Globals) : Globals :=
  mkGlobals (pirTriggered g) (stopButtonPressed g) (lastPirTrigger g)
    (motionPersistenceCounter g) (lastCounterUpdate g) b
    (currentTemperature g) (currentHumidity g) (temperatureDataValid g)
    (ALERT_STOP_THRESHOLD g).

Definition set_environment (t h : float) (g : Globals) : Globals :=
  mkGlobals (pirTriggered g) (stopButtonPressed g) (lastPirTrigger g)
    (motionPersistenceCounter g) (lastCounterUpdate g) (alertSystemStopped g)
    t h true (ALERT_STOP_THRESHOLD g).

Definition set_ALERT_STOP_THRESHOLD (n : Z) (g : Globals) : Globals :=
  mkGlobals (pirTriggered g) (stopButtonPressed g) (lastPirTrigger g)
    (motionPersistenceCounter g) (lastCounterUpdate g) (alertSystemStopped g)
    (currentTemperature g) (currentHumidity g) (temperatureDataValid g) n.

(** The values the globals are initialised with. *)
Definition initialGlobals : Globals :=
  mkGlobals false false 0 0 0 false
    (f32_of_f64 (f64_of_Z 25)) (f32_of_f64 (f64_of_Z 50)) false 5.

(** ** Threshold calculator *)

(** The four reference parameters of
    [calculateTemperatureAdjustedThresholds]. *)
Record Thresholds := mkThresholds {
  slowThreshold : Z;
  mediumThreshold : Z;
  fastThreshold : Z;
  criticalThreshold : Z
}.

(** The piecewise [adjustmentFactor] (a [float] local). *)
Definition adjustmentFactor (temperature : float) : float :=
  if ge temperature CRITICAL_TEMP_THRESHOLD then f32_of_f64 d0_3
  else if ge temperature HOT_TEMP_THRESHOLD then f32_of_f64 d0_5
  else if gt temperature COMFORTABLE_TEMP then
    let tempDiff := f32_sub temperature COMFORTABLE_TEMP in
    let maxTempDiff := f32_sub HOT_TEMP_THRESHOLD COMFORTABLE_TEMP in
    f32_of_f64
      (f64_sub d1_0 (f64_mul (f64_of_f32 (f32_div tempDiff maxTempDiff)) d0_5))
  else f32_of_f64 d1_0.

(** [(uint8_t)(base * adjustmentFactor)]: the integer operand is converted
    to [float], the product is a [float]. *)
Definition calculated (base : Z) (factor : float) : Z :=
  to_u8 (f32_mul (f32_of_Z base) factor).

(** [(c > floor) ? c : floor] *)
Definition atLeast (floor c : Z) : Z := if c >? floor then c else floor.

Definition calculateTemperatureAdjustedThresholds
    (temperature : float) (g : Globals) : Thresholds * Globals :=
  let factor := adjustmentFactor temperature in
  let calculatedSlow := calculated BASE_SLOW_BLINK_COUNTER factor in
  let calculatedMedium := calculated BASE_MEDIUM_BLINK_COUNTER factor in
  let calculatedFast := calculated BASE_FAST_BLINK_COUNTER factor in
  let calculatedCritical := calculated BASE_CRITICAL_BLINK_COUNTER factor in
  let calculatedStop := calculated 5 factor in
  (mkThresholds (atLeast 1 calculatedSlow) (atLeast 2 calculatedMedium)
     (atLeast 3 calculatedFast) (atLeast 4 calculatedCritical),
   set_ALERT_STOP_THRESHOLD (atLeast 2 calculatedStop) g).

(** The stop threshold a call leaves in [ALERT_STOP_THRESHOLD]. *)
Definition stopThresholdAt (temperature : float) : Z :=
  atLeast 2 (calculated 5 (adjustmentFactor temperature)).

Definition calculateBlinkRate (counter : Z) (temperature : float)
    (g : Globals) : Z * Globals :=
  let '(th, g') := calculateTemperatureAdjustedThresholds temperature g in
  (if counter >=? criticalThreshold th then 4
   else if counter >=? fastThreshold th then 3
   else if counter >=? mediumThreshold th then 2
   else if counter >=? slowThreshold th then 1
   else 0,
   g').

(** ** Interrupt service routines *)

(** [motionISR], with [now] the value [millis()] returns. *)
Definition motionISR (now : Z) (g : Globals) : Globals :=
  set_lastPirTrigger now (set_pirTriggered true g).

Definition stopButtonISR (g : Globals) : Globals :=
  if motionPersistenceCounter g >? ALERT_STOP_THRESHOLD g
  then set_stopButtonPressed true g
  else g.

(** ** Data sent between tasks *)

Record MotionData := mkMotionData {
  motionDetected : bool;
  timestamp : Z;
  persistenceCounter : Z;
  alertLevel : Z;
  data_alertSystemStopped : bool;
  temperature : float;
  humidity : float;
  message : string
}.

Record AlertLedData := mkAlertLedData {
  blinkRate : Z;
  active : bool;
  forceUpdate : bool
}.

(** ** One iteration of [motionDetectionTask]

    The loop body is cut at its comments into the blocks it is made of; each
    block is a function of the globals, and [motionDetectionTask_iteration]
    chains them in the order of the source. *)

(** "Handle emergency stop button interrupt": the globals after the block and
    the commands it sends to [alertQueue]. *)
Definition handleStopButton (g : Globals) : Globals * list AlertLedData :=
  if stopButtonPressed g then
    let g1 := set_stopButtonPressed false g in
    if motionPersistenceCounter g1 >? ALERT_STOP_THRESHOLD g1 then
      let g2 := set_alertSystemStopped true g1 in
      let g3 := set_motionPersistenceCounter 0 g2 in
      (g3, [mkAlertLedData 0 false true])
    else (g1, [])
  else (g, []).

(** "Handle PIR sensor interrupt" *)
Definition handlePirInterrupt (currentTime : Z) (g : Globals) : Globals :=
  if pirTriggered g && negb (alertSystemStopped g) then
    let g1 := set_pirTriggered false g in
    let g2 :=
      if motionPersistenceCounter g1 <? MAX_PERSISTENCE_COUNTER
      then set_motionPersistenceCounter (u8 (motionPersistenceCounter g1 + 1)) g1
      else g1 in
    set_lastCounterUpdate currentTime g2
  else g.

(** The two tests of the "6-second polling cycle". *)
Definition updateDue (currentTime : Z) (g : Globals) : bool :=
  u32 (currentTime - lastCounterUpdate g) >=? COUNTER_UPDATE_INTERVAL.

Definition pirSilent (currentTime : Z) (g : Globals) : bool :=
  u32 (currentTime - lastPirTrigger g) >=? PIR_DETECTION_WINDOW.

(** "6-second polling cycle for counter decrement" *)
Definition counterDecrementCycle (currentTime : Z) (g : Globals) : Globals :=
  if updateDue currentTime g then
    let g1 :=
      if pirSilent currentTime g then
        if motionPersistenceCounter g >? 0 then
          let g' :=
            set_motionPersistenceCounter (u8 (motionPersistenceCounter g - 1)) g in
          if alertSystemStopped g' && (motionPersistenceCounter g' =? 0)
          then set_alertSystemStopped false g'
          else g'
        else g
      else g in
    set_lastCounterUpdate currentTime g1
  else g.

(** "Calculate temperature-adjusted alert level": [currentBlinkRate],
    [motionActive] and the globals ([calculateBlinkRate] rewrites
    [ALERT_STOP_THRESHOLD]). *)
Definition alertLevelOf (g : Globals) : Z * bool * Globals :=
  if negb (alertSystemStopped g) then
    let '(rate, g') :=
      calculateBlinkRate (motionPersistenceCounter g) (currentTemperature g) g in
    (rate, motionPersistenceCounter g >=? MIN_COUNTER_FOR_ALERT, g')
  else (0, false, g).

(** "Generate appropriate status message" *)
Definition statusMessage (g : Globals) (currentBlinkRate : Z) : string :=
  if alertSystemStopped g then "ALERT STOPPED"
  else if motionPersistenceCounter g =? 0 then "No Motion"
  else if currentBlinkRate =? 4 then "CRITICAL HOT"
  else if currentBlinkRate =? 3 then "HIGH ALERT"
  else if currentBlinkRate =? 2 then "MEDIUM ALERT"
  else if currentBlinkRate =? 1 then "LOW ALERT"
  else "Motion Brief".

(** What one iteration hands to the outside: the status LED pin, the record
    sent to [motionQueue], and the commands sent to [alertQueue] in order
    (the stop command of the first block, when there is one, then the regular
    command of the iteration). *)
Record CycleOutput := mkCycleOutput {
  statusLed : bool;
  motionData : MotionData;
  stopAlert : list AlertLedData;
  alertData : AlertLedData
}.

Definition alertCommands (o : CycleOutput) : list AlertLedData :=
  stopAlert o ++ [alertData o].

(** The state of the running system: the globals and the locals that the
    task functions keep across iterations. *)
Record System := mkSystem {
  globals : Globals;
  lastBlinkRate : Z;
  lastSensorRead : Z
}.

(** The globals after the three event blocks of an iteration. *)
Definition afterEvents (currentTime : Z) (g : Globals) : Globals :=
  counterDecrementCycle currentTime
    (handlePirInterrupt currentTime (fst (handleStopButton g))).

Definition motionDetectionTask_iteration (currentTime : Z) (s : System)
    : System * CycleOutput :=
  let '(g1, stops) := handleStopButton (globals s) in
  let g2 := handlePirInterrupt currentTime g1 in
  let g3 := counterDecrementCycle currentTime g2 in
  let '(currentBlinkRate, motionActive, g4) := alertLevelOf g3 in
  let led := (motionPersistenceCounter g4 >? 0) && negb (alertSystemStopped g4) in
  let data :=
    mkMotionData motionActive currentTime (motionPersistenceCounter g4)
      currentBlinkRate (alertSystemStopped g4) (currentTemperature g4)
      (currentHumidity g4) (statusMessage g4 currentBlinkRate) in
  let alert :=
    mkAlertLedData currentBlinkRate
      (motionActive && negb (alertSystemStopped g4))
      (negb (currentBlinkRate =? lastBlinkRate s) || alertSystemStopped g4) in
  (mkSystem g4 currentBlinkRate (lastSensorRead s),
   mkCycleOutput led data stops alert).

(** ** The other writers of the globals *)

(** One iteration of [temperatureTask]; [reading] is what the sensor returns
    when it is read: [Some (t, h)] on status 0, [None] on an error. *)
Definition temperatureTask_iteration (currentTime : Z)
    (reading : option (float * float)) (s : System) : System :=
  let due := u32 (currentTime - lastSensorRead s) >=? 3000 in
  let g1 :=
    if due then
      match reading with
      | Some (t, h) => set_environment t h (globals s)
      | None => globals s
      end
    else globals s in
  let '(_, g2) :=
    calculateTemperatureAdjustedThresholds (currentTemperature g1) g1 in
  mkSystem g2 (lastBlinkRate s) (if due then currentTime else lastSensorRead s).

(** The status report of [loop], when it is due. *)
Definition loop_report (s : System) : System :=
  let '(_, g) :=
    calculateTemperatureAdjustedThresholds
      (currentTemperature (globals s)) (globals s) in
  mkSystem g (lastBlinkRate s) (lastSensorRead s).

(** ** Runs *)

Inductive Event :=
| MotionISR (now : Z)
| StopButtonISR
| MotionTask (currentTime : Z)
| TemperatureTask (currentTime : Z) (reading : option (float * float))
| LoopReport.

Definition onGlobals (f : Globals -> Globals) (s : System) : System :=
  mkSystem (f (globals s)) (lastBlinkRate s) (lastSensorRead s).

Definition step (ev : Event) (s : System) : System :=
  match ev with
  | MotionISR now => onGlobals (motionISR now) s
  | StopButtonISR => onGlobals stopButtonISR s
  | MotionTask t => fst (motionDetectionTask_iteration t s)
  | TemperatureTask t r => temperatureTask_iteration t r s
  | LoopReport => loop_report s
  end.

Fixpoint run (evs : list Event) (s : System) : System :=
  match evs with
  | [] => s
  | ev :: evs' => run evs' (step ev s)
  end.

(** The system when [motionDetectionTask] enters its loop at time [start]:
    counter 0, alerts active. *)
Definition bootSystem (start : Z) : System :=
  mkSystem (set_lastCounterUpdate start initialGlobals) 0 0.

Definition reachable (s : System) : Prop :=
  exists start evs, s = run evs (bootSystem start).


(** ** Vocabulary of the properties *)

(** A whole number of degrees Celsius as a [float]. *)
Definition celsius (n : Z) : float := f32_of_f64 (f64_of_Z n).

(** A stop event: the button interrupt followed by the block of the task
    that handles it. *)
Definition stopEvent (g : Globals) : Globals * list AlertLedData :=
  handleStopButton (stopButtonISR g).

(** The invariant of the running system: the counter is within
    [0, MAX_PERSISTENCE_COUNTER], and it is 0 whenever the system is
    stopped. *)
Definition counterInRange (g : Globals) : Prop :=
  0 <= motionPersistenceCounter g <= MAX_PERSISTENCE_COUNTER.

Definition stoppedAtZero (g : Globals) : Prop :=
  alertSystemStopped g = true -> motionPersistenceCounter g = 0.

Definition engineInvariant (g : Globals) : Prop :=
  counterInRange g /\ stoppedAtZero g.

(** Proof steps shared by the lemmas on the blocks of an iteration. *)
Ltac break_globals g :=
  destruct g as [?pir ?stop ?lp ?c ?lu ?st ?tmp ?hum ?val ?thr];
  unfold engineInvariant, counterInRange, stoppedAtZero,
    MAX_PERSISTENCE_COUNTER in *;
  simpl in *.

Ltac split_tests :=
  repeat match goal with
  | |- context [if ?b then _ else _] => destruct b eqn:?; simpl in *
  end.

(** [n] motion interrupts, each followed by the iteration of the task that
    handles it. *)
Definition motionBurst (n : nat) : list Event :=
  List.concat (List.repeat [MotionISR 0; MotionTask 0] n).

(** The globals the decrement block of an iteration starts from. *)
Definition beforeDecrement (t : Z) (g : Globals) : Globals :=
  handlePirInterrupt t (fst (handleStopButton g)).

(** Five motion events from boot at 25 C put the counter at 5, above the
    stop threshold 4 of that temperature; a press of the button then stops
    the system. *)
Definition userStopped : System :=
  run (motionBurst 5 ++ [StopButtonISR; MotionTask 0]) (bootSystem 0).

(** The number of iterations of the motion task, among those run at the
    times [ts] from [s], in which the 6-second cycle is due. *)
Fixpoint decayTicks (ts : list Z) (s : System) : Z :=
  match ts with
  | [] => 0
  | t :: ts' =>
      (if updateDue t (globals s) then 1 else 0)
      + decayTicks ts' (step (MotionTask t) s)
  end.

(** No motion in the trailing detection window of any decay tick of the
    run. *)
Fixpoint silentAtTicks (ts : list Z) (s : System) : Prop :=
  match ts with
  | [] => True
  | t :: ts' =>
      (updateDue t (globals s) = true -> pirSilent t (globals s) = true) /\
      silentAtTicks ts' (step (MotionTask t) s)
  end.

(** Iteration times read from a clock that does not go back: each one is at
    least the one before it, starting from [t0], and [millis()] has not
    wrapped. *)
Fixpoint onClock (t0 : Z) (ts : list Z) : Prop :=
  match ts with
  | [] => True
  | t :: ts' => t0 <= t < 4294967296 /\ onClock t ts'
  end.

(** The scenario of the design document: counter 18 at 35 C, alerts
    active, the stop threshold of that temperature in place. *)
Definition hotCar : System :=
  mkSystem
    (set_ALERT_STOP_THRESHOLD 2
       (set_motionPersistenceCounter 18
          (set_environment (celsius 35) (celsius 50) initialGlobals)))
    4 0.

(** Counter 2 after the last update at time 0: the ticks at 6 s and 12 s
    take it to 0, the tick at 18 s leaves it there; the iterations in
    between are not ticks. *)
Definition quietFromTwo : System :=
  mkSystem (set_motionPersistenceCounter 2 initialGlobals) 0 0.

(** ** The alert LED task *)

Definition SLOW_BLINK_INTERVAL : Z := 1000.
Definition MEDIUM_BLINK_INTERVAL : Z := 500.
Definition FAST_BLINK_INTERVAL : Z := 200.
Definition CRITICAL_BLINK_INTERVAL : Z := 100.

(** [getBlinkInterval] *)
Definition getBlinkInterval (rate : Z) : Z :=
  if rate =? 1 then SLOW_BLINK_INTERVAL
  else if rate =? 2 then MEDIUM_BLINK_INTERVAL
  else if rate =? 3 then FAST_BLINK_INTERVAL
  else if rate =? 4 then CRITICAL_BLINK_INTERVAL
  else 0.

(** The locals of [alertLedTask] that live across iterations, and the level
    of [ALERT_LED_PIN]. *)
Record LedTask := mkLedTask {
  ledState : bool;
  lastBlinkTime : Z;
  currentInterval : Z;
  blinkingActive : bool;
  alertLedPin : bool
}.

(** "Check for new alert commands", when [xQueueReceive] returns a command;
    [now] is what [millis()] returns there. *)
Definition receiveCommand (alertData : AlertLedData) (now : Z) (l : LedTask)
    : LedTask :=
  if active alertData && (blinkRate alertData >? 0) then
    let interval := getBlinkInterval (blinkRate alertData) in
    if forceUpdate alertData
    then mkLedTask (ledState l) now interval true (alertLedPin l)
    else mkLedTask (ledState l) (lastBlinkTime l) interval true (alertLedPin l)
  else mkLedTask false (lastBlinkTime l) (currentInterval l) false false.

(** "Handle LED blinking based on current interval" *)
Definition blinkStep (currentTime : Z) (l : LedTask) : LedTask :=
  if blinkingActive l && (currentInterval l >? 0) then
    if u32 (currentTime - lastBlinkTime l) >=? currentInterval l
    then mkLedTask (negb (ledState l)) currentTime (currentInterval l)
           (blinkingActive l) (negb (ledState l))
    else l
  else l.

(** One iteration of [alertLedTask]: [received] is the command that the
    queue hands over, if any. *)
Definition alertLedTask_iteration (received : option AlertLedData)
    (receiveTime currentTime : Z) (l : LedTask) : LedTask :=
  blinkStep currentTime
    (match received with
     | Some alertData => receiveCommand alertData receiveTime l
     | None => l
     end).

(** The task when it enters its loop; [setup] has driven the pin low. *)
Definition ledBoot : LedTask := mkLedTask false 0 0 false false.

(** A run of the task: what each iteration receives and the two times it
    reads. *)
Fixpoint ledRun (its : list (option AlertLedData * Z * Z)) (l : LedTask)
    : LedTask :=
  match its with
  | [] => l
  | (received, receiveTime, currentTime) :: its' =>
      ledRun its' (alertLedTask_iteration received receiveTime currentTime l)
  end.

(** What the task keeps true. *)
Definition ledInvariant (l : LedTask) : Prop :=
  alertLedPin l = ledState l /\
  (blinkingActive l = false -> ledState l = false) /\
  In (currentInterval l) [0; 100; 200; 500; 1000].

(** ** The display task *)

(** [String(n)] for an unsigned integer: its decimal digits. *)
Definition decimal (n : Z) : string :=
  NilEmpty.string_of_uint (N.to_uint (Z.to_N n)).

(** The status shown on the first line: the message cut to 10 characters. *)
Definition shortStatus (message : string) : string :=
  if (10 <? Z.of_nat (String.length message))
  then String.substring 0 10 message
  else message.

(** The two lines that [displayTask] prints for a record received from
    [motionQueue].  [formatTemperature] is [String(temperature, 0)], the
    temperature printed without decimals. *)
Definition displayLines (formatTemperature : float -> string)
    (receivedData : MotionData) (g : Globals) : string * string :=
  if data_alertSystemStopped receivedData then
    ("ALERT STOPPED"%string, "By User Button"%string)
  else
    let line1 :=
      String.append (shortStatus (message receivedData))
        (String.append " "
           (String.append (formatTemperature (temperature receivedData)) "C")) in
    let counterStr :=
      String.append "C:" (decimal (persistenceCounter receivedData)) in
    let alertStr := String.append " L" (decimal (alertLevel receivedData)) in
    (line1,
     if persistenceCounter receivedData >? ALERT_STOP_THRESHOLD g
     then String.append counterStr " BTN!"
     else String.append counterStr alertStr).

(** ** Vocabulary of the further properties *)

Definition stopThresholdInRange (g : Globals) : Prop :=
  2 <= ALERT_STOP_THRESHOLD g <= 5.

(** * Properties *)

(** ** Rounding in [SpecFloat] *)

(** [digits2_pos m] is the number of binary digits of [m]. *)
Lemma digits2_pos_bounds (m : positive) :
  2 ^ (Zpos (digits2_pos m) - 1) <= Zpos m < 2 ^ Zpos (digits2_pos m).
Proof.
  induction m as [m IH | m IH |]; simpl digits2_pos.
  - rewrite Pos2Z.inj_succ.
    replace (Z.succ (Zpos (digits2_pos m)) - 1) with (Z.succ (Zpos (digits2_pos m) - 1)) by lia.
    rewrite !Z.pow_succ_r by lia. lia.
  - rewrite Pos2Z.inj_succ.
    replace (Z.succ (Zpos (digits2_pos m)) - 1) with (Z.succ (Zpos (digits2_pos m) - 1)) by lia.
    rewrite !Z.pow_succ_r by lia. lia.
  - simpl. lia.
Qed.

Lemma digits2_pos_unique (m : positive) (k : Z) :
  2 ^ (k - 1) <= Zpos m < 2 ^ k -> Zpos (digits2_pos m) = k.
Proof.
  intros [Hlo Hhi].
  pose proof (digits2_pos_bounds m) as [Blo Bhi].
  assert (0 <= k) by (destruct k; try lia; simpl in Hhi; lia).
  destruct (Z.lt_trichotomy (Zpos (digits2_pos m)) k) as [H1 | [H1 | H1]].
  - exfalso.
    assert (2 ^ Zpos (digits2_pos m) <= 2 ^ (k - 1)) by (apply Z.pow_le_mono_r; lia).
    lia.
  - exact H1.
  - exfalso.
    assert (2 ^ k <= 2 ^ (Zpos (digits2_pos m) - 1)) by (apply Z.pow_le_mono_r; lia).
    lia.
Qed.

(** The iterator of [SpecFloat] is the iteration of [nat]. *)
Lemma iter_pos_nat {A : Type} (f : A -> A) (p : positive) :
  forall x, iter_pos f p x = Nat.iter (Pos.to_nat p) f x.
Proof.
  induction p as [p IH | p IH |]; intro x; simpl iter_pos.
  - rewrite !IH, Pos2Nat.inj_xI.
    replace (S (2 * Pos.to_nat p)) with (Pos.to_nat p + (Pos.to_nat p + 1))%nat by lia.
    rewrite !Nat.iter_add. simpl. reflexivity.
  - rewrite !IH, Pos2Nat.inj_xO.
    replace (2 * Pos.to_nat p)%nat with (Pos.to_nat p + Pos.to_nat p)%nat by lia.
    rewrite Nat.iter_add. reflexivity.
  - reflexivity.
Qed.

(** One shift to the right: the quotient by 2, the bit that leaves as the
    round bit, and the old round and sticky bits merged. *)
Lemma shr_1_spec (m : Z) (r s : bool) :
  0 <= m ->
  shr_1 (Build_shr_record m r s) = Build_shr_record (m / 2) (Z.odd m) (r || s).
Proof.
  intro Hm. destruct m as [|p|p]; [reflexivity| |lia].
  destruct p as [p|p|]; simpl shr_1.
  - replace (Z.pos p~1 / 2) with (Z.pos p); [reflexivity|].
    rewrite Pos2Z.inj_xI. apply Z.div_unique with (r := 1); lia.
  - replace (Z.pos p~0 / 2) with (Z.pos p); [reflexivity|].
    rewrite Pos2Z.inj_xO. apply Z.div_unique with (r := 0); lia.
  - reflexivity.
Qed.

(** The record after [n] one-bit shifts of an exact [m]: the round bit
    says whether the dropped part is at least one half of the unit, the
    sticky bit whether it is neither 0 nor exactly one half. *)
Lemma shr_iter_spec (m : Z) (n : nat) :
  0 <= m ->
  Nat.iter n shr_1 (Build_shr_record m false false)
  = Build_shr_record (m / 2 ^ Z.of_nat n)
      (2 ^ Z.of_nat n <=? 2 * (m mod 2 ^ Z.of_nat n))
      (negb ((2 * (m mod 2 ^ Z.of_nat n)) mod 2 ^ Z.of_nat n =? 0)).
Proof.
  intro Hm. induction n as [|n IH].
  - simpl. rewrite Z.div_1_r, Z.mod_1_r. reflexivity.
  - rewrite Nat.iter_succ, IH. clear IH.
    rewrite shr_1_spec by (apply Z.div_pos; [lia | apply Z.pow_pos_nonneg; lia]).
    rewrite Nat2Z.inj_succ, Z.pow_succ_r by lia.
    set (H := 2 ^ Z.of_nat n) in *.
    assert (HH : 0 < H) by (apply Z.pow_pos_nonneg; lia).
    pose proof (Z.div_mod m H ltac:(lia)) as E1.
    pose proof (Z.mod_pos_bound m H HH) as B1.
    pose proof (Z.div_mod (m / H) 2 ltac:(lia)) as E2.
    pose proof (Z.mod_pos_bound (m / H) 2 ltac:(lia)) as B2.
    assert (Eq : m / (2 * H) = m / H / 2).
    { rewrite (Z.mul_comm 2 H). rewrite Z.div_div by lia. reflexivity. }
    assert (Er : m mod (2 * H) = m mod H + H * ((m / H) mod 2)).
    { symmetry. apply Z.mod_unique with (q := m / H / 2); [nia | nia]. }
    rewrite Eq, Er.
    set (rho := m mod H) in *. set (q := m / H) in *.
    assert (Eodd : Z.odd q = (q mod 2 =? 1)).
    { rewrite Zmod_odd. destruct (Z.odd q); reflexivity. }
    f_equal.
    + rewrite Eodd. destruct (q mod 2 =? 1) eqn:Eb.
      * apply Z.eqb_eq in Eb. symmetry. apply Z.leb_le. nia.
      * apply Z.eqb_neq in Eb. symmetry. apply Z.leb_gt. nia.
    + assert (Em : (2 * (rho + H * (q mod 2))) mod (2 * H) = 2 * rho).
      { symmetry. apply Z.mod_unique with (q := q mod 2); nia. }
      rewrite Em.
      destruct (Z.eq_dec rho 0) as [E0 | E0].
      * rewrite E0. rewrite Z.mul_0_r, Z.mod_0_l by lia.
        destruct (H <=? 0) eqn:E; [apply Z.leb_le in E; lia | reflexivity].
      * assert (En : (2 * rho =? 0) = false) by (apply Z.eqb_neq; lia).
        rewrite En.
        destruct (H <=? 2 * rho) eqn:E; [reflexivity|].
        apply Z.leb_gt in E. rewrite Z.mod_small by lia.
        rewrite En. reflexivity.
Qed.

(** Rounding to nearest picks the quotient or its successor, at most one
    half of the unit away from [m], and the quotient when nothing is
    dropped. *)
Lemma round_nearest_even_bound (m H : Z) :
  0 <= m -> 0 < H ->
  let q := m / H in
  let rho := m mod H in
  let q' := round_nearest_even q
              (loc_of_shr_record
                 (Build_shr_record q (H <=? 2 * rho)
                    (negb ((2 * rho) mod H =? 0)))) in
  q <= q' <= q + 1 /\ 2 * Z.abs (q' * H - m) <= H /\ (rho = 0 -> q' = q).
Proof.
  intros Hm HH. cbv zeta.
  pose proof (Z.div_mod m H ltac:(lia)) as E1.
  pose proof (Z.mod_pos_bound m H HH) as B1.
  set (rho := m mod H) in *. set (q := m / H) in *.
  destruct (H <=? 2 * rho) eqn:Er.
  - apply Z.leb_le in Er.
    assert (Em : (2 * rho) mod H = 2 * rho - H).
    { symmetry. apply Z.mod_unique with (q := 1); lia. }
    rewrite Em.
    destruct (2 * rho - H =? 0) eqn:Es; cbn [negb loc_of_shr_record round_nearest_even].
    + apply Z.eqb_eq in Es. destruct (Z.even q); repeat split; nia.
    + apply Z.eqb_neq in Es. repeat split; nia.
  - apply Z.leb_gt in Er. rewrite Z.mod_small by lia.
    destruct (2 * rho =? 0) eqn:Es; cbn [negb loc_of_shr_record round_nearest_even];
      repeat split; nia.
Qed.

Section Rounding.
Variables prec emax : Z.
Hypothesis prec_pos : 0 < prec.

Lemma shr_exact_record (m : positive) (e n : Z) :
  shr (shr_record_of_loc (Zpos m) loc_Exact) e n
  = (if 0 <? n
     then Build_shr_record (Zpos m / 2 ^ n)
            (2 ^ n <=? 2 * (Zpos m mod 2 ^ n))
            (negb ((2 * (Zpos m mod 2 ^ n)) mod 2 ^ n =? 0))
     else Build_shr_record (Zpos m) false false,
     if 0 <? n then e + n else e).
Proof.
  unfold shr, shr_record_of_loc. destruct n as [|pn|pn]; try reflexivity.
  rewrite iter_pos_nat, shr_iter_spec by lia.
  rewrite positive_nat_Z. reflexivity.
Qed.

(** Rounding of a mantissa of at least [prec] digits, away from the
    subnormal range and from overflow: the result is a finite number with a
    [prec]-digit mantissa, within one half of the dropped unit of the exact
    value, and equal to it when the dropped bits are zero. *)
Lemma binary_round_aux_spec (s : bool) (m : positive) (e : Z) :
  let n := Zpos (digits2_pos m) - prec in
  0 <= n ->
  3 - emax - prec <= e + n ->
  e + n + 1 <= emax - prec ->
  exists (M : positive) (E : Z),
    binary_round_aux prec emax s (Zpos m) e loc_Exact = S754_finite s M E /\
    e + n <= E <= e + n + 1 /\
    2 ^ (prec - 1) <= Zpos M < 2 ^ prec /\
    2 * Z.abs (Zpos M * 2 ^ (E - e) - Zpos m) <= 2 ^ n /\
    (Zpos m mod 2 ^ n = 0 -> Zpos M * 2 ^ (E - e) = Zpos m).
Proof.
  intros n Hn Hmin Hmax.
  pose proof (digits2_pos_bounds m) as [Dlo Dhi].
  assert (HH : 0 < 2 ^ n) by (apply Z.pow_pos_nonneg; lia).
  assert (Hk : Zpos (digits2_pos m) = n + prec) by (unfold n; lia).
  rewrite Hk in Dlo, Dhi.
  replace (n + prec - 1) with (n + (prec - 1)) in Dlo by lia.
  rewrite Z.pow_add_r in Dlo, Dhi by lia.
  assert (Hp1 : 0 < 2 ^ (prec - 1)) by (apply Z.pow_pos_nonneg; lia).
  assert (Hp2 : 2 ^ prec = 2 * 2 ^ (prec - 1)).
  { replace prec with (Z.succ (prec - 1)) at 1 by lia. apply Z.pow_succ_r. lia. }
  pose proof (Z.div_mod (Zpos m) (2 ^ n) ltac:(lia)) as E1.
  pose proof (Z.mod_pos_bound (Zpos m) (2 ^ n) HH) as B1.
  pose proof (round_nearest_even_bound (Zpos m) (2 ^ n) ltac:(lia) HH) as R.
  cbv zeta in R.
  unfold binary_round_aux, shr_fexp.
  unfold Zdigits2 at 1. unfold fexp at 1, emin.
  replace (Z.max (Zpos (digits2_pos m) + e - prec) (3 - emax - prec) - e) with n
    by (unfold n; lia).
  rewrite shr_exact_record.
  set (q := Zpos m / 2 ^ n) in *. set (rho := Zpos m mod 2 ^ n) in *.
  assert (Hq : 2 ^ (prec - 1) <= q < 2 ^ prec) by nia.
  destruct (0 <? n) eqn:En.
  - (* bits are dropped *)
    apply Z.ltb_lt in En.
    cbn [shr_m loc_of_shr_record].
    change (loc_of_shr_record
              {| shr_m := q; shr_r := 2 ^ n <=? 2 * rho;
                 shr_s := negb ((2 * rho) mod 2 ^ n =? 0) |})
      with (loc_of_shr_record
              (Build_shr_record q (2 ^ n <=? 2 * rho)
                 (negb ((2 * rho) mod 2 ^ n =? 0)))).
    set (q' := round_nearest_even q _) in *.
    destruct R as (Rq & Rerr & Rex).
    destruct (Z.eq_dec q' (2 ^ prec)) as [Ov | Nov].
    + (* the rounded mantissa overflows to the next binade *)
      rewrite Ov.
      assert (Epow : exists pp, 2 ^ prec = Zpos pp).
      { destruct (2 ^ prec) eqn:E2; try lia. eexists; reflexivity. }
      destruct Epow as [pp Epp]. rewrite Epp.
      assert (Dpp : Zpos (digits2_pos pp) = prec + 1).
      { apply digits2_pos_unique. rewrite <- Epp.
        replace (prec + 1 - 1) with prec by lia.
        replace (prec + 1) with (Z.succ prec) by lia.
        rewrite Z.pow_succ_r by lia. lia. }
      unfold Zdigits2, fexp, emin. rewrite Dpp.
      replace (Z.max (prec + 1 + (e + n) - prec) (3 - emax - prec) - (e + n))
        with 1 by lia.
      rewrite shr_exact_record. cbn [Z.ltb Z.compare shr_m].
      rewrite <- Epp. change (2 ^ 1) with 2.
      assert (Eh : 2 ^ prec / 2 = 2 ^ (prec - 1)).
      { rewrite Hp2. rewrite Z.mul_comm. apply Z.div_mul. lia. }
      rewrite Eh.
      destruct (2 ^ (prec - 1)) as [|hp|hp] eqn:Ehp; try lia.
      replace (e + n + 1 <=? emax - prec) with true
        by (symmetry; apply Z.leb_le; lia).
      exists hp, (e + n + 1). split; [reflexivity|].
      split; [lia|]. split; [lia|].
      replace (e + n + 1 - e) with (Z.succ n) by lia.
      rewrite Z.pow_succ_r by lia.
      split; [nia|]. intro Hz. specialize (Rex Hz). nia.
    + assert (Hq' : 2 ^ (prec - 1) <= q' < 2 ^ prec) by lia.
      destruct q' as [|pq|pq] eqn:Epq; try lia.
      assert (Dpq : Zpos (digits2_pos pq) = prec)
        by (apply digits2_pos_unique; lia).
      unfold Zdigits2, fexp, emin. rewrite Dpq.
      replace (Z.max (prec + (e + n) - prec) (3 - emax - prec) - (e + n))
        with 0 by lia.
      rewrite shr_exact_record. cbn [Z.ltb Z.compare shr_m].
      replace (e + n <=? emax - prec) with true
        by (symmetry; apply Z.leb_le; lia).
      exists pq, (e + n). split; [reflexivity|].
      split; [lia|]. split; [lia|].
      replace (e + n - e) with n by lia.
      split; [lia|]. intro Hz. specialize (Rex Hz). nia.
  - (* nothing to drop *)
    apply Z.ltb_ge in En. assert (n = 0) by lia.
    cbn [shr_m loc_of_shr_record round_nearest_even].
    assert (Dm : Zpos (digits2_pos m) = prec) by lia.
    unfold Zdigits2, fexp, emin. rewrite Dm.
    replace (Z.max (prec + e - prec) (3 - emax - prec) - e) with 0 by lia.
    rewrite shr_exact_record. cbn [Z.ltb Z.compare shr_m].
    replace (e <=? emax - prec) with true by (symmetry; apply Z.leb_le; lia).
    exists m, e. split; [reflexivity|].
    replace (e - e) with 0 by lia. rewrite Z.mul_1_r.
    assert (q = Zpos m) by (unfold q; replace n with 0 by lia; apply Z.div_1_r).
    repeat split; try lia.
Qed.

End Rounding.

Lemma pos_iter_xO (m d : positive) :
  Zpos (Pos.iter xO m d) = Zpos m * 2 ^ Zpos d.
Proof.
  induction d as [|d IH] using Pos.peano_ind.
  - simpl. lia.
  - rewrite Pos.iter_succ, Pos2Z.inj_xO, IH, Pos2Z.inj_succ.
    rewrite Z.pow_succ_r by lia. lia.
Qed.

Lemma shl_align_ge (m : positive) (e e' : Z) :
  e <= e' -> shl_align m e e' = (m, e).
Proof.
  intro H. unfold shl_align. destruct (e' - e) eqn:E; try reflexivity. lia.
Qed.

Lemma shl_align_lt (m : positive) (e e' : Z) :
  e' < e ->
  exists m', shl_align m e e' = (m', e') /\ Zpos m' = Zpos m * 2 ^ (e - e').
Proof.
  intro H. unfold shl_align. destruct (e' - e) as [|d|d] eqn:E; try lia.
  eexists. split; [reflexivity|]. rewrite pos_iter_xO.
  replace (e - e') with (Zpos d) by lia. reflexivity.
Qed.

Section ExactRounding.
Variables prec emax : Z.
Hypothesis prec_pos : 0 < prec.

Lemma pow2_split (a b : Z) : 0 <= a -> 0 <= b -> 2 ^ (a + b) = 2 ^ a * 2 ^ b.
Proof. intros. apply Z.pow_add_r; assumption. Qed.

(** A mantissa that is a [prec]-digit number followed by zeros rounds to
    that number. *)
Lemma binary_round_aux_exact (s : bool) (m M0 : positive) (e E0 : Z) :
  2 ^ (prec - 1) <= Zpos M0 < 2 ^ prec ->
  e <= E0 ->
  Zpos m = Zpos M0 * 2 ^ (E0 - e) ->
  3 - emax - prec <= E0 ->
  E0 + 1 <= emax - prec ->
  binary_round_aux prec emax s (Zpos m) e loc_Exact = S754_finite s M0 E0.
Proof.
  intros HM He Hm Hmin Hmax.
  assert (HH : 0 < 2 ^ (E0 - e)) by (apply Z.pow_pos_nonneg; lia).
  assert (Hp2 : 2 ^ prec = 2 * 2 ^ (prec - 1)).
  { replace prec with (Z.succ (prec - 1)) at 1 by lia. apply Z.pow_succ_r. lia. }
  assert (Dm : Zpos (digits2_pos m) = prec + (E0 - e)).
  { apply digits2_pos_unique. rewrite Hm.
    replace (prec + (E0 - e) - 1) with ((prec - 1) + (E0 - e)) by lia.
    rewrite !pow2_split by lia. nia. }
  destruct (binary_round_aux_spec prec emax prec_pos s m e)
    as (M & E & Hr & HE & HMb & _ & Hex); try lia.
  rewrite Hr.
  replace (Zpos (digits2_pos m) - prec) with (E0 - e) in * by lia.
  assert (Hz : Zpos m mod 2 ^ (E0 - e) = 0)
    by (rewrite Hm; apply Z.mod_mul; lia).
  specialize (Hex Hz). rewrite Hm in Hex.
  assert (E = E0 \/ E = E0 + 1) as [-> | ->] by lia.
  - f_equal. nia.
  - exfalso. replace (E0 + 1 - e) with (Z.succ (E0 - e)) in Hex by lia.
    rewrite Z.pow_succ_r in Hex by lia. nia.
Qed.

Lemma binary_round_exact_down (s : bool) (m M0 : positive) (e E0 : Z) :
  2 ^ (prec - 1) <= Zpos M0 < 2 ^ prec ->
  e <= E0 ->
  Zpos m = Zpos M0 * 2 ^ (E0 - e) ->
  3 - emax - prec <= E0 ->
  E0 + 1 <= emax - prec ->
  binary_round prec emax s m e = S754_finite s M0 E0.
Proof.
  intros HM He Hm Hmin Hmax.
  assert (Dm : Zpos (digits2_pos m) = prec + (E0 - e)).
  { apply digits2_pos_unique. rewrite Hm.
    assert (Hp2 : 2 ^ prec = 2 * 2 ^ (prec - 1)).
    { replace prec with (Z.succ (prec - 1)) at 1 by lia.
      apply Z.pow_succ_r. lia. }
    assert (HH : 0 < 2 ^ (E0 - e)) by (apply Z.pow_pos_nonneg; lia).
    replace (prec + (E0 - e) - 1) with ((prec - 1) + (E0 - e)) by lia.
    rewrite !pow2_split by lia. nia. }
  unfold binary_round. rewrite shl_align_ge.
  - apply binary_round_aux_exact; assumption.
  - unfold fexp, emin. lia.
Qed.

Lemma binary_round_exact_up (s : bool) (m M0 : positive) (e E0 : Z) :
  2 ^ (prec - 1) <= Zpos M0 < 2 ^ prec ->
  E0 <= e ->
  Zpos M0 = Zpos m * 2 ^ (e - E0) ->
  3 - emax - prec <= E0 ->
  E0 + 1 <= emax - prec ->
  binary_round prec emax s m e = S754_finite s M0 E0.
Proof.
  intros HM He Hm Hmin Hmax.
  destruct (Z.eq_dec E0 e) as [-> | Hne].
  - apply binary_round_exact_down; try assumption; try lia.
    rewrite Z.sub_diag in *. lia.
  - assert (HH : 0 < 2 ^ (e - E0)) by (apply Z.pow_pos_nonneg; lia).
    assert (Hp2 : 2 ^ prec = 2 * 2 ^ (prec - 1)).
    { replace prec with (Z.succ (prec - 1)) at 1 by lia.
      apply Z.pow_succ_r. lia. }
    assert (Dm : Zpos (digits2_pos m) = prec - (e - E0)).
    { pose proof (digits2_pos_bounds m) as [Dlo Dhi].
      pose proof (digits2_pos_bounds M0) as [Mlo Mhi].
      assert (DM : Zpos (digits2_pos M0) = prec)
        by (apply digits2_pos_unique; lia).
      symmetry. 
      assert (Zpos (digits2_pos M0) = Zpos (digits2_pos m) + (e - E0)).
      { apply digits2_pos_unique. rewrite Hm.
        replace (Zpos (digits2_pos m) + (e - E0) - 1)
          with ((Zpos (digits2_pos m) - 1) + (e - E0)) by lia.
        rewrite !pow2_split by lia. nia. }
      lia. }
    unfold binary_round.
    destruct (shl_align_lt m e (fexp prec emax (Zpos (digits2_pos m) + e)))
      as (m' & Hs & Hm').
    { unfold fexp, emin. lia. }
    rewrite Hs.
    replace (fexp prec emax (Zpos (digits2_pos m) + e)) with E0 in *
      by (unfold fexp, emin; lia).
    apply binary_round_aux_exact; try assumption; try lia.
    rewrite Z.sub_diag. lia.
Qed.

End ExactRounding.

(** ** The adjustment factor *)

Lemma COMFORTABLE_TEMP_bits : COMFORTABLE_TEMP = S754_finite false 11534336 (-19).
Proof. vm_compute. reflexivity. Qed.
Lemma HOT_TEMP_THRESHOLD_bits : HOT_TEMP_THRESHOLD = S754_finite false 15728640 (-19).
Proof. vm_compute. reflexivity. Qed.
Lemma maxTempDiff_bits :
  f32_sub HOT_TEMP_THRESHOLD COMFORTABLE_TEMP = S754_finite false 8388608 (-20).
Proof. vm_compute. reflexivity. Qed.
Lemma d0_5_bits : d0_5 = S754_finite false 4503599627370496 (-53).
Proof. vm_compute. reflexivity. Qed.
Lemma d1_0_bits : d1_0 = S754_finite false 4503599627370496 (-52).
Proof. vm_compute. reflexivity. Qed.

(** tempDiff: the subtraction is exact, the result is normalised. *)
Lemma tempDiff_exact (m : positive) :
  11534336 < Zpos m < 15728640 ->
  exists (M1 : positive) (j : Z),
    2 <= j <= 23 /\
    Zpos M1 = (Zpos m - 11534336) * 2 ^ j /\
    8388608 <= Zpos M1 < 16777216 /\
    f32_sub (S754_finite false m (-19)) COMFORTABLE_TEMP
      = S754_finite false M1 (-19 - j).
Proof.
  intro Hm. rewrite COMFORTABLE_TEMP_bits.
  unfold f32_sub, SFsub. change (Z.min (-19) (-19)) with (-19).
  cbn [cond_Zopp].
  rewrite !shl_align_ge by lia. cbn [fst].
  destruct (Zpos m - 11534336) as [|d|d] eqn:Ed; try lia.
  unfold binary_normalize.
  pose proof (digits2_pos_bounds d) as [Dlo Dhi].
  set (k := Zpos (digits2_pos d)) in *.
  assert (Hk : 1 <= k <= 22).
  { split; [unfold k; lia|].
    destruct (Z_le_gt_dec k 22) as [H|H]; [exact H|exfalso].
    assert (2 ^ 22 <= 2 ^ (k - 1)) by (apply Z.pow_le_mono_r; lia).
    change (2 ^ 22) with 4194304 in *. lia. }
  assert (Hpow : 2 ^ (k - 1) * 2 ^ (24 - k) = 8388608).
  { rewrite <- Z.pow_add_r by lia. replace (k - 1 + (24 - k)) with 23 by lia.
    reflexivity. }
  assert (Hpow' : 2 ^ k = 2 * 2 ^ (k - 1)).
  { replace k with (Z.succ (k - 1)) at 1 by lia. apply Z.pow_succ_r. lia. }
  assert (HX : 0 < 2 ^ (24 - k)) by (apply Z.pow_pos_nonneg; lia).
  assert (Hlo : 2 ^ (k - 1) * 2 ^ (24 - k) <= Zpos d * 2 ^ (24 - k))
    by (apply Z.mul_le_mono_nonneg_r; lia).
  assert (Hhi : Zpos d * 2 ^ (24 - k) < 2 ^ k * 2 ^ (24 - k))
    by (apply Z.mul_lt_mono_pos_r; lia).
  rewrite Hpow', <- Z.mul_assoc, Hpow in Hhi. rewrite Hpow in Hlo.
  destruct (Zpos d * 2 ^ (24 - k)) as [|M1|M1] eqn:EM; try lia.
  exists M1, (24 - k).
  split; [lia|]. split; [lia|]. split; [lia|].
  apply binary_round_exact_up; try lia.
  replace (-19 - (-19 - (24 - k))) with (24 - k) by lia. lia.
Qed.

(** The division by [maxTempDiff], 8, only moves the exponent. *)
Lemma div_maxTempDiff_exact (M1 : positive) (E1 : Z) :
  8388608 <= Zpos M1 < 16777216 ->
  -100 <= E1 <= 100 ->
  f32_div (S754_finite false M1 E1) (S754_finite false 8388608 (-20))
    = S754_finite false M1 (E1 - 3).
Proof.
  intros HM HE.
  assert (DM : Zpos (digits2_pos M1) = 24)
    by (apply digits2_pos_unique; change (2 ^ (24 - 1)) with 8388608;
        change (2 ^ 24) with 16777216; lia).
  unfold f32_div, SFdiv, SFdiv_core_binary, Zdigits2.
  rewrite DM. change (Zpos (digits2_pos 8388608)) with 24.
  replace (Z.min (fexp 24 128 (24 + E1 - (24 + -20))) (E1 - -20))
    with (E1 - 4) by (unfold fexp, emin; lia).
  replace (E1 - -20 - (E1 - 4)) with 24 by lia.
  cbv iota beta.
  assert (Ediv : Z.div_eucl (Z.shiftl (Zpos M1) 24) 8388608 = (Zpos M1~0, 0)).
  { rewrite Z.shiftl_mul_pow2 by lia. change (2 ^ 24) with 16777216.
    pose proof (Z_div_mod (Zpos M1 * 16777216) 8388608 ltac:(lia)) as H.
    destruct (Z.div_eucl (Zpos M1 * 16777216) 8388608) as [q r].
    destruct H as [H1 H2]. f_equal; lia. }
  rewrite Ediv. cbv iota beta.
  change (new_location 8388608 0) with loc_Exact.
  cbn [xorb].
  apply binary_round_aux_exact; try lia.
  replace (E1 - 3 - (E1 - 4)) with 1 by lia. lia.
Qed.


(** The conversion of a normal [float] to [double] is exact. *)
Lemma f64_of_f32_exact (M1 : positive) (E : Z) :
  8388608 <= Zpos M1 < 16777216 ->
  -100 <= E <= 100 ->
  f64_of_f32 (S754_finite false M1 E)
    = S754_finite false (M1 * 536870912) (E - 29).
Proof.
  intros HM HE. unfold f64_of_f32, cond_Zopp, binary_normalize.
  apply binary_round_exact_up; try lia.
  replace (E - (E - 29)) with 29 by lia. lia.
Qed.

(** The product with 0.5 is exact. *)
Lemma mul_half_exact (M2 : positive) (E : Z) :
  4503599627370496 <= Zpos M2 < 9007199254740992 ->
  -200 <= E <= 200 ->
  f64_mul (S754_finite false M2 E) d0_5 = S754_finite false M2 (E - 1).
Proof.
  intros HM HE. rewrite d0_5_bits. unfold f64_mul, SFmul. cbn [xorb].
  apply binary_round_aux_exact; try lia.
  replace (E - 1 - (E + -53)) with 52 by lia. lia.
Qed.

(** [1.0 - y] for [y = d * 2^-23] with [0 < d < 2^22] is exact. *)
Lemma one_minus_exact (M2 M3 : positive) (d j : Z) :
  0 < d < 4194304 ->
  2 <= j <= 23 ->
  Zpos M2 = d * 2 ^ j * 536870912 ->
  Zpos M3 = (8388608 - d) * 1073741824 ->
  f64_sub d1_0 (S754_finite false M2 (-52 - j)) = S754_finite false M3 (-53).
Proof.
  intros Hd Hj HM2 HM3. rewrite d1_0_bits. unfold f64_sub, SFsub.
  replace (Z.min (-52) (-52 - j)) with (-52 - j) by lia.
  destruct (shl_align_lt 4503599627370496 (-52) (-52 - j)) as (m1 & Hs & Hm1);
    [lia|].
  rewrite Hs, shl_align_ge by lia. cbn [fst cond_Zopp].
  replace (-52 - (-52 - j)) with j in Hm1 by lia.
  assert (HX : 0 < 2 ^ (j - 1)) by (apply Z.pow_pos_nonneg; lia).
  assert (Hpow : 2 ^ j = 2 * 2 ^ (j - 1)).
  { replace j with (Z.succ (j - 1)) at 1 by lia. apply Z.pow_succ_r. lia. }
  rewrite Hpow in *.
  destruct (Zpos m1 - Zpos M2) as [|m3|m3] eqn:E3; try nia.
  unfold binary_normalize.
  apply binary_round_exact_down; try lia.
  replace (-53 - (-52 - j)) with (j - 1) by lia. nia.
Qed.

(** The conversion back to [float] is exact. *)
Lemma f32_of_f64_exact (M3 N : positive) :
  Zpos M3 = Zpos N * 536870912 ->
  8388608 <= Zpos N < 16777216 ->
  f32_of_f64 (S754_finite false M3 (-53)) = S754_finite false N (-24).
Proof.
  intros HM HN. unfold f32_of_f64, cond_Zopp, binary_normalize.
  apply binary_round_exact_down; try lia.
Qed.

(** The interpolated factor: for a temperature [m * 2^-19] strictly between
    22 and 30 it is [1 - (t - 22) / 16], computed without any rounding. *)
Lemma interpolation_exact (m : positive) :
  11534336 < Zpos m < 15728640 ->
  exists N : positive,
    Zpos N = 2 * (19922944 - Zpos m) /\
    f32_of_f64
      (f64_sub d1_0
         (f64_mul
            (f64_of_f32
               (f32_div (f32_sub (S754_finite false m (-19)) COMFORTABLE_TEMP)
                  (f32_sub HOT_TEMP_THRESHOLD COMFORTABLE_TEMP)))
            d0_5))
    = S754_finite false N (-24).
Proof.
  intro Hm.
  destruct (tempDiff_exact m Hm) as (M1 & j & Hj & HM1 & HB1 & ->).
  rewrite maxTempDiff_bits.
  rewrite div_maxTempDiff_exact by lia.
  rewrite f64_of_f32_exact by lia.
  rewrite mul_half_exact by lia.
  destruct (2 * (19922944 - Zpos m)) as [|N|N] eqn:EN; try lia.
  exists N. split; [reflexivity|].
  destruct ((8388608 - (Zpos m - 11534336)) * 1073741824) as [|M3|M3] eqn:E3;
    try lia.
  replace (-19 - j - 3 - 29 - 1) with (-52 - j) by lia.
  rewrite (one_minus_exact (M1 * 536870912) M3 (Zpos m - 11534336) j);
    try lia.
  apply f32_of_f64_exact; lia.
Qed.

(** The temperatures that take the interpolation branch. *)
Lemma interpolation_range (t : float) :
  ge t HOT_TEMP_THRESHOLD = false ->
  gt t COMFORTABLE_TEMP = true ->
  exists m : positive,
    t = S754_finite false m (-19) /\ 11534336 < Zpos m < 15728640.
Proof.
  unfold ge, gt, SFleb, SFltb.
  rewrite HOT_TEMP_THRESHOLD_bits, COMFORTABLE_TEMP_bits.
  destruct t as [s | s | | s m e]; try (destruct s); cbn [SFcompare];
    try discriminate.
  destruct (-19 ?= e) eqn:Ec; try discriminate.
  apply Z.compare_eq in Ec. subst e.
  change (Pos.compare_cont Eq 15728640 m) with (Pos.compare 15728640 m).
  change (Pos.compare_cont Eq 11534336 m) with (Pos.compare 11534336 m).
  destruct (Pos.compare_spec 15728640 m) as [H1 | H1 | H1]; try discriminate.
  destruct (Pos.compare_spec 11534336 m) as [H2 | H2 | H2]; try discriminate.
  intros _ _. exists m. split; [reflexivity|].
  apply Pos2Z.pos_lt_pos in H1, H2. split; assumption.
Qed.

(** The factor is one of the three constants of the zones, or the
    interpolated value, a [float] strictly between 0.5 and 1. *)
Lemma adjustmentFactor_cases (t : float) :
  adjustmentFactor t = S754_finite false 10066330 (-25) \/
  adjustmentFactor t = S754_finite false 8388608 (-24) \/
  adjustmentFactor t = S754_finite false 8388608 (-23) \/
  exists N : positive,
    8388608 < Zpos N < 16777216 /\
    adjustmentFactor t = S754_finite false N (-24).
Proof.
  unfold adjustmentFactor.
  destruct (ge t CRITICAL_TEMP_THRESHOLD); [left; vm_compute; reflexivity|].
  destruct (ge t HOT_TEMP_THRESHOLD) eqn:Eh;
    [right; left; vm_compute; reflexivity|].
  destruct (gt t COMFORTABLE_TEMP) eqn:Ec;
    [|right; right; left; vm_compute; reflexivity].
  right; right; right.
  destruct (interpolation_range t Eh Ec) as (m & -> & Hm).
  destruct (interpolation_exact m Hm) as (N & HN & E).
  exists N. split; [lia|]. cbv zeta. exact E.
Qed.

Lemma trunc_scaled (M : positive) (E e : Z) :
  E < 0 -> e <= E ->
  trunc (S754_finite false M E) = (Zpos M * 2 ^ (E - e)) / 2 ^ (- e).
Proof.
  intros HE He. unfold trunc, cond_Zopp.
  destruct E as [|pE|pE]; try lia.
  rewrite Z.shiftr_div_pow2 by lia.
  replace (- e) with (Zpos pE + (Z.neg pE - e)) by lia.
  rewrite Z.pow_add_r by lia.
  rewrite Z.div_mul_cancel_r; [reflexivity | |];
    apply Z.pow_nonzero; lia.
Qed.

(** The product of a [float] in [1, 32) by a factor in [0.5, 1): the cast
    to an integer sees a value within [2^24] units of [2^(eb - 24)] of the
    exact product. *)
Lemma calculated_bound (base : Z) (B N : positive) (eb : Z) :
  f32_of_Z base = S754_finite false B eb ->
  8388608 <= Zpos B < 16777216 ->
  8388608 <= Zpos N < 16777216 ->
  -23 <= eb <= -19 ->
  exists V : Z,
    trunc (f32_mul (f32_of_Z base) (S754_finite false N (-24)))
      = V / 2 ^ (24 - eb) /\
    2 * Z.abs (V - Zpos B * Zpos N) <= 33554432.
Proof.
  intros -> HB HN He. unfold f32_mul, SFmul. cbn [xorb].
  assert (Hd : 47 <= Zpos (digits2_pos (B * N)) <= 48).
  { pose proof (digits2_pos_bounds (B * N)) as [Dlo Dhi].
    rewrite Pos2Z.inj_mul in Dlo, Dhi.
    set (k := Zpos (digits2_pos (B * N))) in *.
    assert (Hlo : 8388608 * 8388608 <= Zpos B * Zpos N) by nia.
    assert (Hhi : Zpos B * Zpos N < 16777216 * 16777216) by nia.
    split.
    - destruct (Z_lt_ge_dec k 47) as [H|H]; [exfalso | lia].
      assert (2 ^ k <= 2 ^ 46) by (apply Z.pow_le_mono_r; lia).
      change (2 ^ 46) with (8388608 * 8388608) in *. lia.
    - destruct (Z_le_gt_dec k 48) as [H|H]; [lia | exfalso].
      assert (2 ^ 48 <= 2 ^ (k - 1)) by (apply Z.pow_le_mono_r; lia).
      change (2 ^ 48) with (16777216 * 16777216) in *. lia. }
  destruct (binary_round_aux_spec 24 128 ltac:(lia) false (B * N) (eb + -24))
    as (M & E & Hr & HE & HM & Herr & _); try lia.
  rewrite Hr.
  exists (Zpos M * 2 ^ (E - (eb + -24))). split.
  - rewrite (trunc_scaled M E (eb + -24)) by lia.
    replace (- (eb + -24)) with (24 - eb) by lia. reflexivity.
  - rewrite Pos2Z.inj_mul in Herr.
    assert (2 ^ (Zpos (digits2_pos (B * N)) - 24) <= 2 ^ 24)
      by (apply Z.pow_le_mono_r; lia).
    change (2 ^ 24) with 16777216 in *. lia.
Qed.

Lemma div_interval (V c : Z) :
  0 < c -> c * (V / c) <= V < c * (V / c + 1).
Proof.
  intro Hc. pose proof (Z.div_mod V c ltac:(lia)) as E.
  pose proof (Z.mod_pos_bound V c Hc) as B. lia.
Qed.

(** The truncated products in the interpolation zone. *)
Lemma trunc_interpolated (N : positive) :
  8388608 <= Zpos N < 16777216 ->
  let f := S754_finite false N (-24) in
  2 <= trunc (f32_mul (f32_of_Z 5) f) /\
  trunc (f32_mul (f32_of_Z 5) f) < trunc (f32_mul (f32_of_Z 8) f) /\
  trunc (f32_mul (f32_of_Z 8) f) < trunc (f32_mul (f32_of_Z 12) f) /\
  trunc (f32_mul (f32_of_Z 12) f) < trunc (f32_mul (f32_of_Z 16) f) /\
  trunc (f32_mul (f32_of_Z 16) f) <= 16.
Proof.
  intros HN f. unfold f.
  destruct (calculated_bound 5 10485760 N (-21)) as (V5 & -> & H5);
    [vm_compute; reflexivity | lia | lia | lia |].
  destruct (calculated_bound 8 8388608 N (-20)) as (V8 & -> & H8);
    [vm_compute; reflexivity | lia | lia | lia |].
  destruct (calculated_bound 12 12582912 N (-20)) as (V12 & -> & H12);
    [vm_compute; reflexivity | lia | lia | lia |].
  destruct (calculated_bound 16 8388608 N (-19)) as (V16 & -> & H16);
    [vm_compute; reflexivity | lia | lia | lia |].
  change (2 ^ (24 - -21)) with 35184372088832.
  change (2 ^ (24 - -20)) with 17592186044416.
  change (2 ^ (24 - -19)) with 8796093022208.
  pose proof (div_interval V5 35184372088832 ltac:(lia)) as D5.
  pose proof (div_interval V8 17592186044416 ltac:(lia)) as D8.
  pose proof (div_interval V12 17592186044416 ltac:(lia)) as D12.
  pose proof (div_interval V16 8796093022208 ltac:(lia)) as D16.
  set (c5 := V5 / 35184372088832) in *.
  set (c8 := V8 / 17592186044416) in *.
  set (c12 := V12 / 17592186044416) in *.
  set (c16 := V16 / 8796093022208) in *.
  lia.
Qed.

(** The products that the calculator casts to [uint8_t] truncate to a value
    within [1, 16], whatever the temperature: the cast is defined and the
    model of [to_u8] never wraps. *)
Lemma calculated_in_range (t : float) (base : Z) :
  In base [5; 8; 12; 16] ->
  1 <= trunc (f32_mul (f32_of_Z base) (adjustmentFactor t)) <= 16 /\
  calculated base (adjustmentFactor t)
    = trunc (f32_mul (f32_of_Z base) (adjustmentFactor t)).
Proof.
  intro Hb.
  assert (Hr : 1 <= trunc (f32_mul (f32_of_Z base) (adjustmentFactor t)) <= 16).
  { destruct (adjustmentFactor_cases t) as [E | [E | [E | (N & HN & E)]]];
      rewrite E.
    - destruct Hb as [<- | [<- | [<- | [<- | []]]]]; vm_compute;
        split; intro H; discriminate H.
    - destruct Hb as [<- | [<- | [<- | [<- | []]]]]; vm_compute;
        split; intro H; discriminate H.
    - destruct Hb as [<- | [<- | [<- | [<- | []]]]]; vm_compute;
        split; intro H; discriminate H.
    - pose proof (trunc_interpolated N ltac:(lia)) as H. cbv zeta in H.
      destruct Hb as [<- | [<- | [<- | [<- | []]]]]; lia. }
  split; [exact Hr|]. unfold calculated, to_u8, u8.
  apply Z.mod_small. lia.
Qed.

Lemma atLeast_max (floor c : Z) : atLeast floor c = Z.max floor c.
Proof.
  unfold atLeast. destruct (c >? floor) eqn:E.
  - rewrite Z.gtb_ltb in E. apply Z.ltb_lt in E. lia.
  - rewrite Z.gtb_ltb in E. apply Z.ltb_ge in E. lia.
Qed.

(** ** The calculator at the reference temperatures *)

(** C7.  At 22 C the calculator returns (5, 8, 12, 16) and leaves the stop
    threshold at 5; at 30 C it returns (2, 4, 6, 8) and the stop threshold 2;
    at 35 C it returns (1, 2, 3, 4) and the stop threshold 2.  The globals the
    call starts from play no part. *)
Theorem thresholds_at_reference_temperatures :
  forall g : Globals,
    (fst (calculateTemperatureAdjustedThresholds (celsius 22) g)
       = mkThresholds 5 8 12 16 /\
     ALERT_STOP_THRESHOLD
       (snd (calculateTemperatureAdjustedThresholds (celsius 22) g)) = 5) /\
    (fst (calculateTemperatureAdjustedThresholds (celsius 30) g)
       = mkThresholds 2 4 6 8 /\
     ALERT_STOP_THRESHOLD
       (snd (calculateTemperatureAdjustedThresholds (celsius 30) g)) = 2) /\
    (fst (calculateTemperatureAdjustedThresholds (celsius 35) g)
       = mkThresholds 1 2 3 4 /\
     ALERT_STOP_THRESHOLD
       (snd (calculateTemperatureAdjustedThresholds (celsius 35) g)) = 2).
Proof.
  intro g. repeat split; vm_compute; reflexivity.
Qed.

(** ** What a call of the calculator writes *)

(** The claim C5 as it is stated does not hold: a call at 35 C from the
    initial globals changes [ALERT_STOP_THRESHOLD] from 5 to 2. *)
Lemma calculator_writes_stop_threshold :
  ALERT_STOP_THRESHOLD initialGlobals = 5 /\
  ALERT_STOP_THRESHOLD
    (snd (calculateTemperatureAdjustedThresholds (celsius 35) initialGlobals))
    = 2 /\
  snd (calculateTemperatureAdjustedThresholds (celsius 35) initialGlobals)
    <> initialGlobals.
Proof.
  split; [reflexivity|]. split; [vm_compute; reflexivity|].
  intro H. apply (f_equal ALERT_STOP_THRESHOLD) in H.
  vm_compute in H. discriminate H.
Qed.

(** C5, amended.  Besides its four output parameters a call writes exactly
    one global, [ALERT_STOP_THRESHOLD], which receives the adjusted stop
    threshold of the temperature; every other global keeps its value. *)
Theorem calculator_frame :
  forall (temperature : float) (g : Globals),
    let g' := snd (calculateTemperatureAdjustedThresholds temperature g) in
    pirTriggered g' = pirTriggered g /\
    stopButtonPressed g' = stopButtonPressed g /\
    lastPirTrigger g' = lastPirTrigger g /\
    motionPersistenceCounter g' = motionPersistenceCounter g /\
    lastCounterUpdate g' = lastCounterUpdate g /\
    alertSystemStopped g' = alertSystemStopped g /\
    currentTemperature g' = currentTemperature g /\
    currentHumidity g' = currentHumidity g /\
    temperatureDataValid g' = temperatureDataValid g /\
    ALERT_STOP_THRESHOLD g' = stopThresholdAt temperature /\
    g' = set_ALERT_STOP_THRESHOLD (stopThresholdAt temperature) g.
Proof.
  intros temperature g. cbv zeta.
  unfold calculateTemperatureAdjustedThresholds, stopThresholdAt. simpl.
  repeat split; reflexivity.
Qed.

(** ** Order and floors of the thresholds *)

(** C3.  For every temperature, a NaN, an infinity or any other value of
    the [float] type included, the four thresholds that the calculator
    returns are strictly increasing, slow < medium < fast < critical, they
    are at least 1, 2, 3 and 4, and the stop threshold that the call leaves
    in [ALERT_STOP_THRESHOLD] is at least 2. *)
Theorem thresholds_increasing_above_floors :
  forall (temperature : float) (g : Globals),
    let th := fst (calculateTemperatureAdjustedThresholds temperature g) in
    let g' := snd (calculateTemperatureAdjustedThresholds temperature g) in
    slowThreshold th < mediumThreshold th /\
    mediumThreshold th < fastThreshold th /\
    fastThreshold th < criticalThreshold th /\
    1 <= slowThreshold th /\
    2 <= mediumThreshold th /\
    3 <= fastThreshold th /\
    4 <= criticalThreshold th /\
    2 <= ALERT_STOP_THRESHOLD g'.
Proof.
  intros temperature g. cbv zeta.
  unfold calculateTemperatureAdjustedThresholds.
  cbn [fst snd slowThreshold mediumThreshold fastThreshold criticalThreshold
       ALERT_STOP_THRESHOLD set_ALERT_STOP_THRESHOLD].
  unfold BASE_SLOW_BLINK_COUNTER, BASE_MEDIUM_BLINK_COUNTER,
    BASE_FAST_BLINK_COUNTER, BASE_CRITICAL_BLINK_COUNTER.
  rewrite !atLeast_max.
  destruct (calculated_in_range temperature 5) as [R5 ->]; [simpl; tauto|].
  destruct (calculated_in_range temperature 8) as [R8 ->]; [simpl; tauto|].
  destruct (calculated_in_range temperature 12) as [R12 ->]; [simpl; tauto|].
  destruct (calculated_in_range temperature 16) as [R16 ->]; [simpl; tauto|].
  assert (H : trunc (f32_mul (f32_of_Z 5) (adjustmentFactor temperature))
              < trunc (f32_mul (f32_of_Z 8) (adjustmentFactor temperature)) /\
              trunc (f32_mul (f32_of_Z 8) (adjustmentFactor temperature))
              < trunc (f32_mul (f32_of_Z 12) (adjustmentFactor temperature)) /\
              trunc (f32_mul (f32_of_Z 12) (adjustmentFactor temperature))
              < trunc (f32_mul (f32_of_Z 16) (adjustmentFactor temperature))).
  { destruct (adjustmentFactor_cases temperature)
      as [E | [E | [E | (N & HN & E)]]]; rewrite E.
    - vm_compute. repeat split.
    - vm_compute. repeat split.
    - vm_compute. repeat split.
    - pose proof (trunc_interpolated N ltac:(lia)) as H. cbv zeta in H. lia. }
  lia.
Qed.

(** ** The alert level as a function of the counter *)

(** C10.  At a fixed temperature the blink rate is monotone in the counter:
    [c1 <= c2] gives [calculateBlinkRate c1 t <= calculateBlinkRate c2 t],
    whatever the globals the two calls start from. *)
Theorem blinkRate_monotone_in_counter :
  forall (temperature : float) (g1 g2 : Globals) (c1 c2 : Z),
    c1 <= c2 ->
    fst (calculateBlinkRate c1 temperature g1)
      <= fst (calculateBlinkRate c2 temperature g2).
Proof.
  intros temperature g1 g2 c1 c2 Hc. unfold calculateBlinkRate.
  unfold calculateTemperatureAdjustedThresholds.
  cbn [fst snd slowThreshold mediumThreshold fastThreshold criticalThreshold].
  set (s := atLeast 1 _). set (m := atLeast 2 _).
  set (f := atLeast 3 _). set (c := atLeast 4 _).
  rewrite !Z.geb_leb.
  destruct (Z.leb_spec c c1); destruct (Z.leb_spec c c2);
    destruct (Z.leb_spec f c1); destruct (Z.leb_spec f c2);
    destruct (Z.leb_spec m c1); destruct (Z.leb_spec m c2);
    destruct (Z.leb_spec s c1); destruct (Z.leb_spec s c2); lia.
Qed.

Lemma blinkRate_monotone_in_counter_witness :
  fst (calculateBlinkRate 2 (celsius 35) initialGlobals)
    <= fst (calculateBlinkRate 3 (celsius 35) initialGlobals).
Proof.
  apply (blinkRate_monotone_in_counter (celsius 35) initialGlobals
           initialGlobals 2 3).
  lia.
Defined.

(** ** The stop interlock *)

(** C1.  A stop event at [counter <= ALERT_STOP_THRESHOLD] changes neither
    the mode nor the counter (so an active system stays active), sends no
    command, and leaves every global as it was when no earlier press was
    pending; at [counter > ALERT_STOP_THRESHOLD] the same event stops the
    system and resets the counter to 0, and sends the stop command. *)
Theorem stop_interlock_gating :
  forall g : Globals,
    (motionPersistenceCounter g <= ALERT_STOP_THRESHOLD g ->
       alertSystemStopped (fst (stopEvent g)) = alertSystemStopped g /\
       motionPersistenceCounter (fst (stopEvent g))
         = motionPersistenceCounter g /\
       snd (stopEvent g) = [] /\
       (stopButtonPressed g = false -> fst (stopEvent g) = g)) /\
    (motionPersistenceCounter g > ALERT_STOP_THRESHOLD g ->
       alertSystemStopped (fst (stopEvent g)) = true /\
       motionPersistenceCounter (fst (stopEvent g)) = 0 /\
       snd (stopEvent g) = [mkAlertLedData 0 false true]).
Proof.
  intro g. unfold stopEvent, stopButtonISR, handleStopButton.
  destruct g as [pir stop lp c lu st tmp hum val thr]; simpl.
  split; intro H.
  - assert (E : (c >? thr) = false) by (rewrite Z.gtb_ltb; apply Z.ltb_ge; lia).
    rewrite E. simpl. destruct stop; simpl; rewrite ?E; simpl;
      repeat split; intros; try reflexivity; try discriminate.
  - assert (E : (c >? thr) = true) by (rewrite Z.gtb_ltb; apply Z.ltb_lt; lia).
    rewrite E. simpl. rewrite E. simpl. repeat split.
Qed.

Lemma stop_interlock_gating_witness :
  (alertSystemStopped (fst (stopEvent initialGlobals)) = false /\
   motionPersistenceCounter (fst (stopEvent initialGlobals)) = 0 /\
   fst (stopEvent initialGlobals) = initialGlobals) /\
  (alertSystemStopped
     (fst (stopEvent (set_motionPersistenceCounter 18 initialGlobals))) = true /\
   motionPersistenceCounter
     (fst (stopEvent (set_motionPersistenceCounter 18 initialGlobals))) = 0).
Proof.
  split.
  - destruct (stop_interlock_gating initialGlobals) as [H _].
    destruct H as (H1 & H2 & _ & H4); [simpl; lia|].
    split; [exact H1|]. split; [exact H2|]. apply H4. reflexivity.
  - destruct (stop_interlock_gating
                (set_motionPersistenceCounter 18 initialGlobals)) as [_ H].
    destruct H as (H1 & H2 & _); [simpl; lia|].
    split; [exact H1 | exact H2].
Defined.

(** ** How the blocks of an iteration act on the counter and the mode *)

Lemma gtb_true (a b : Z) : (a >? b) = true <-> a > b.
Proof. rewrite Z.gtb_ltb, Z.ltb_lt. lia. Qed.

Lemma gtb_false (a b : Z) : (a >? b) = false <-> a <= b.
Proof. rewrite Z.gtb_ltb, Z.ltb_ge. lia. Qed.

Lemma u8_small (z : Z) : 0 <= z < 256 -> u8 z = z.
Proof. intro H. unfold u8. apply Z.mod_small. exact H. Qed.

Lemma calculator_globals (temperature : float) (g : Globals) :
  snd (calculateTemperatureAdjustedThresholds temperature g)
    = set_ALERT_STOP_THRESHOLD (stopThresholdAt temperature) g.
Proof. reflexivity. Qed.

Lemma alertLevelOf_globals (g : Globals) :
  snd (alertLevelOf g)
    = if alertSystemStopped g then g
      else set_ALERT_STOP_THRESHOLD (stopThresholdAt (currentTemperature g)) g.
Proof.
  unfold alertLevelOf. destruct (alertSystemStopped g); reflexivity.
Qed.

Lemma alertLevelOf_counter (g : Globals) :
  motionPersistenceCounter (snd (alertLevelOf g)) = motionPersistenceCounter g.
Proof.
  rewrite alertLevelOf_globals. destruct (alertSystemStopped g); reflexivity.
Qed.

Lemma alertLevelOf_stopped (g : Globals) :
  alertSystemStopped (snd (alertLevelOf g)) = alertSystemStopped g.
Proof.
  rewrite alertLevelOf_globals. destruct (alertSystemStopped g) eqn:E;
    simpl; congruence.
Qed.

Lemma iteration_globals (t : Z) (s : System) :
  globals (fst (motionDetectionTask_iteration t s))
    = snd (alertLevelOf (afterEvents t (globals s))).
Proof.
  unfold motionDetectionTask_iteration, afterEvents.
  destruct (handleStopButton (globals s)) as [g1 stops]. simpl.
  destruct (alertLevelOf _) as [[rate act] g4]. reflexivity.
Qed.

Lemma handleStopButton_invariant (g : Globals) :
  engineInvariant g -> engineInvariant (fst (handleStopButton g)).
Proof.
  unfold handleStopButton. break_globals g. intros [Hr Hs].
  split_tests; split; intros; try lia; auto.
Qed.

Lemma handlePirInterrupt_invariant (t : Z) (g : Globals) :
  engineInvariant g -> engineInvariant (handlePirInterrupt t g).
Proof.
  unfold handlePirInterrupt. break_globals g. intros [Hr Hs].
  destruct (pir && negb st) eqn:Ep; simpl; [|split; assumption].
  apply andb_prop in Ep. destruct Ep as [_ Est].
  apply negb_true_iff in Est. subst st.
  destruct (c <? 20) eqn:Ec; simpl.
  - apply Z.ltb_lt in Ec. rewrite u8_small by lia.
    split; [lia | discriminate].
  - split; [lia | discriminate].
Qed.

Lemma counterDecrementCycle_invariant (t : Z) (g : Globals) :
  engineInvariant g -> engineInvariant (counterDecrementCycle t g).
Proof.
  unfold counterDecrementCycle. intros [Hr Hs].
  destruct (updateDue t g); [|split; assumption].
  destruct (pirSilent t g); [|break_globals g; split; assumption].
  break_globals g.
  destruct (c >? 0) eqn:Ec; simpl; [|split; assumption].
  apply gtb_true in Ec. rewrite u8_small by lia.
  destruct (st && (c - 1 =? 0)) eqn:E; simpl.
  - split; [lia | discriminate].
  - split; [lia|]. intro Hst. specialize (Hs Hst). lia.
Qed.

Lemma alertLevelOf_invariant (g : Globals) :
  engineInvariant g -> engineInvariant (snd (alertLevelOf g)).
Proof.
  unfold engineInvariant, counterInRange, stoppedAtZero.
  rewrite alertLevelOf_counter, alertLevelOf_stopped. tauto.
Qed.

Lemma step_invariant (ev : Event) (s : System) :
  engineInvariant (globals s) -> engineInvariant (globals (step ev s)).
Proof.
  intro H. destruct ev as [now | | t | t r |]; simpl.
  - unfold motionISR. break_globals (globals s). exact H.
  - unfold stopButtonISR. break_globals (globals s).
    destruct (c >? thr); exact H.
  - rewrite iteration_globals. unfold afterEvents.
    apply alertLevelOf_invariant, counterDecrementCycle_invariant,
      handlePirInterrupt_invariant, handleStopButton_invariant, H.
  - unfold temperatureTask_iteration.
    destruct (u32 (t - lastSensorRead s) >=? 3000); simpl.
    + destruct r as [[tc h]|]; simpl; break_globals (globals s); exact H.
    + break_globals (globals s); exact H.
  - unfold loop_report. simpl. break_globals (globals s). exact H.
Qed.

Lemma run_invariant (evs : list Event) :
  forall s, engineInvariant (globals s) ->
            engineInvariant (globals (run evs s)).
Proof.
  induction evs as [|ev evs IH]; intros s H; simpl.
  - exact H.
  - apply IH, step_invariant, H.
Qed.

Lemma boot_invariant (start : Z) : engineInvariant (globals (bootSystem start)).
Proof.
  unfold engineInvariant, counterInRange, stoppedAtZero. simpl.
  unfold MAX_PERSISTENCE_COUNTER. split; [lia | discriminate].
Qed.

Lemma reachable_invariant (s : System) :
  reachable s -> engineInvariant (globals s).
Proof.
  intros (start & evs & ->). apply run_invariant, boot_invariant.
Qed.

(** ** The range of the persistence counter *)

(** C4.  In every state that a sequence of interrupts and task iterations
    reaches from boot (counter 0, alerts active) the counter is within
    [0, 20]; the PIR block run on a motion interrupt at counter 20 leaves it
    at 20, and the decrement block run at counter 0 leaves it at 0. *)
Theorem counter_stays_in_range :
  forall (start : Z) (evs : list Event),
    let g := globals (run evs (bootSystem start)) in
    0 <= motionPersistenceCounter g <= 20 /\
    (motionPersistenceCounter g = 20 ->
       forall now t : Z,
         motionPersistenceCounter (handlePirInterrupt t (motionISR now g))
           = 20) /\
    (motionPersistenceCounter g = 0 ->
       forall t : Z,
         motionPersistenceCounter (counterDecrementCycle t g) = 0).
Proof.
  intros start evs g.
  assert (Hinv : engineInvariant (globals (run evs (bootSystem start))))
    by apply run_invariant, boot_invariant.
  fold g in Hinv. destruct Hinv as [Hr Hs].
  split; [exact Hr|]. split.
  - intros H20 now t. unfold handlePirInterrupt, motionISR.
    break_globals g. subst.
    destruct (negb st); simpl; reflexivity.
  - intros H0 t. unfold counterDecrementCycle.
    destruct (updateDue t g); [|exact H0].
    destruct (pirSilent t g); [|break_globals g; exact H0].
    break_globals g. subst. reflexivity.
Qed.

Lemma counter_stays_in_range_witness :
  (forall now t : Z,
     motionPersistenceCounter
       (handlePirInterrupt t
          (motionISR now (globals (run (motionBurst 20) (bootSystem 0)))))
       = 20) /\
  (forall t : Z,
     motionPersistenceCounter
       (counterDecrementCycle t (globals (run [] (bootSystem 0)))) = 0).
Proof.
  split.
  - apply (counter_stays_in_range 0 (motionBurst 20)).
    vm_compute. reflexivity.
  - apply (counter_stays_in_range 0 []).
    vm_compute. reflexivity.
Defined.

(** ** Auto re-arm *)

Lemma handleStopButton_keeps_stopped (g : Globals) :
  alertSystemStopped g = true ->
  alertSystemStopped (fst (handleStopButton g)) = true.
Proof.
  unfold handleStopButton. break_globals g. intros ->.
  split_tests; reflexivity.
Qed.

Lemma handlePirInterrupt_stopped (t : Z) (g : Globals) :
  alertSystemStopped g = true -> handlePirInterrupt t g = g.
Proof.
  unfold handlePirInterrupt. intros ->. rewrite andb_false_r. reflexivity.
Qed.

(** The decrement block takes a stopped system back to active only in a
    cycle that is due, with the PIR silent, and from a positive counter: the
    test of the re-arm sits inside the test [motionPersistenceCounter > 0]. *)
Lemma decrement_rearms_iff (t : Z) (g : Globals) :
  alertSystemStopped g = true ->
  alertSystemStopped (counterDecrementCycle t g) = false <->
  (updateDue t g = true /\
   pirSilent t g = true /\
   motionPersistenceCounter g > 0 /\
   motionPersistenceCounter (counterDecrementCycle t g) = 0).
Proof.
  intro Hst. unfold counterDecrementCycle.
  destruct (updateDue t g) eqn:Ed;
    [|rewrite Hst; split; [discriminate | intros [H _]; discriminate H]].
  destruct (pirSilent t g) eqn:Ep;
    [|break_globals g; subst; split;
      [discriminate | intros (_ & H & _); discriminate H]].
  break_globals g. subst st.
  destruct (c >? 0) eqn:Ec; simpl.
  - apply gtb_true in Ec.
    destruct (u8 (c - 1) =? 0) eqn:E0; simpl.
    + apply Z.eqb_eq in E0. tauto.
    + apply Z.eqb_neq in E0. split; [discriminate | tauto].
  - apply gtb_false in Ec. split; [discriminate|]. intros (_ & _ & H & _). lia.
Qed.

(** C2.  The re-arm that the claim describes, and that the comment of the
    decrement block announces ("Re-enable alert system if counter reaches
    zero"), does not happen.  [userStopped] is reached from boot: five
    motion events, a press of the button and the iteration that takes it.
    It is stopped with counter 0, since the stop block resets the counter.
    The iteration at 6000 ms is a decay tick, the cycle being due and the
    PIR silent for the window; the counter is 0 before and after it, and
    the system is still stopped after it. *)
Theorem decay_tick_at_zero_does_not_rearm :
  reachable userStopped /\
  alertSystemStopped (globals userStopped) = true /\
  motionPersistenceCounter (globals userStopped) = 0 /\
  updateDue 6000 (beforeDecrement 6000 (globals userStopped)) = true /\
  pirSilent 6000 (beforeDecrement 6000 (globals userStopped)) = true /\
  motionPersistenceCounter (globals (step (MotionTask 6000) userStopped)) = 0 /\
  alertSystemStopped (globals (step (MotionTask 6000) userStopped)) = true.
Proof.
  split.
  - exists 0, (motionBurst 5 ++ [StopButtonISR; MotionTask 0]). reflexivity.
  - vm_compute. repeat split; reflexivity.
Qed.

(** ** Stopped means counter 0 *)

(** C9.  In every state reached from boot, a stopped system has counter 0.
    The two reasons: the stop block, when it takes the system from active to
    stopped, leaves the counter at 0; and with the system stopped, the PIR
    block leaves the counter as it is even when a motion interrupt is
    pending. *)
Theorem stopped_implies_counter_zero :
  forall (start : Z) (evs : list Event),
    let g := globals (run evs (bootSystem start)) in
    (alertSystemStopped g = true -> motionPersistenceCounter g = 0) /\
    (forall g0 : Globals,
       alertSystemStopped g0 = false ->
       alertSystemStopped (fst (handleStopButton g0)) = true ->
       motionPersistenceCounter (fst (handleStopButton g0)) = 0) /\
    (forall (g0 : Globals) (now t : Z),
       alertSystemStopped g0 = true ->
       motionPersistenceCounter (handlePirInterrupt t (motionISR now g0))
         = motionPersistenceCounter g0).
Proof.
  intros start evs g. split; [|split].
  - assert (Hinv : engineInvariant (globals (run evs (bootSystem start))))
      by apply run_invariant, boot_invariant.
    destruct Hinv as [_ Hs]. exact Hs.
  - intros g0 Ha Hb. unfold handleStopButton in *. break_globals g0. subst.
    revert Hb. split_tests; intro Hb; try reflexivity; discriminate Hb.
  - intros g0 now t Hst. rewrite handlePirInterrupt_stopped.
    + unfold motionISR. break_globals g0. reflexivity.
    + unfold motionISR. break_globals g0. exact Hst.
Qed.

Lemma stopped_implies_counter_zero_witness :
  motionPersistenceCounter (globals userStopped) = 0.
Proof.
  unfold userStopped.
  destruct (stopped_implies_counter_zero 0
              (motionBurst 5 ++ [StopButtonISR; MotionTask 0])) as [H _].
  apply H. vm_compute. reflexivity.
Defined.

(** The re-arm needs a stopped system with a positive counter, and the runs
    from boot have none: from boot, a stopped system stays stopped. *)
Lemma step_reachable (ev : Event) (s : System) :
  reachable s -> reachable (step ev s).
Proof.
  intros (start & evs & ->). exists start, (evs ++ [ev]).
  generalize (bootSystem start). induction evs as [|e evs IH]; intro s0; simpl.
  - reflexivity.
  - apply IH.
Qed.

Remark stopped_system_stays_stopped (ev : Event) (s : System) :
  reachable s ->
  alertSystemStopped (globals s) = true ->
  alertSystemStopped (globals (step ev s)) = true.
Proof.
  intros Hr Hst.
  pose proof (step_reachable ev s Hr) as Hr'.
  destruct (alertSystemStopped (globals (step ev s))) eqn:E; [reflexivity|].
  exfalso.
  destruct ev as [now | | t | t r |]; simpl in E.
  - unfold motionISR in E. break_globals (globals s). congruence.
  - unfold stopButtonISR in E. break_globals (globals s).
    destruct (c >? thr); simpl in E; congruence.
  - rewrite iteration_globals, alertLevelOf_stopped in E.
    unfold afterEvents in E.
    assert (Hs1 : alertSystemStopped (fst (handleStopButton (globals s))) = true)
      by apply handleStopButton_keeps_stopped, Hst.
    rewrite (handlePirInterrupt_stopped t _ Hs1) in E.
    apply (decrement_rearms_iff t _ Hs1) in E.
    destruct E as (_ & _ & Hpos & _).
    assert (Hz : stoppedAtZero (fst (handleStopButton (globals s))))
      by apply handleStopButton_invariant, reachable_invariant, Hr.
    specialize (Hz Hs1). lia.
  - unfold temperatureTask_iteration in E.
    destruct (u32 (t - lastSensorRead s) >=? 3000); simpl in E;
      [destruct r as [[tc h]|]|]; simpl in E;
      break_globals (globals s); congruence.
  - unfold loop_report in E. simpl in E.
    break_globals (globals s). congruence.
Qed.

(** ** A stop within an iteration *)

(** The iteration that follows a press of the button at
    [counter > ALERT_STOP_THRESHOLD] ends stopped with counter 0, whatever
    its time and whatever else is pending: the PIR block is skipped and the
    decrement block finds nothing to decrement. *)
Lemma stop_taken_by_iteration (t : Z) (s : System) :
  motionPersistenceCounter (globals s) > ALERT_STOP_THRESHOLD (globals s) ->
  let s' := step (MotionTask t) (step StopButtonISR s) in
  alertSystemStopped (globals s') = true /\
  motionPersistenceCounter (globals s') = 0.
Proof.
  intros Hc s'. unfold s'. simpl.
  rewrite iteration_globals, alertLevelOf_counter, alertLevelOf_stopped.
  unfold afterEvents. simpl.
  apply gtb_true in Hc.
  unfold stopButtonISR, handleStopButton. rewrite Hc. simpl. rewrite Hc.
  simpl. rewrite handlePirInterrupt_stopped by reflexivity.
  unfold counterDecrementCycle.
  destruct (updateDue t _); [|split; reflexivity].
  destruct (pirSilent t _); split; reflexivity.
Qed.

(** The scenario of the design document: at counter 18 and 35 C the alert
    level is 4; a press of the button is taken by the next iteration, which
    ends stopped with counter 0 and sends the stop command, followed by the
    regular command of the iteration, both [{0, false, true}]. *)
Example hot_car_stop :
  fst (calculateBlinkRate 18 (celsius 35) (globals hotCar)) = 4 /\
  let r := motionDetectionTask_iteration 100 (step StopButtonISR hotCar) in
  alertSystemStopped (globals (fst r)) = true /\
  motionPersistenceCounter (globals (fst r)) = 0 /\
  alertCommands (snd r)
    = [mkAlertLedData 0 false true; mkAlertLedData 0 false true].
Proof.
  vm_compute. repeat split.
Qed.

(** ** The force-update flag of the alert command *)

(** The claim C6 as it is stated does not hold: in the iteration that
    follows the one in which the system was stopped, the alert level is the
    one of the previous iteration and the mode does not change, and
    [forceUpdate] is set all the same. *)
Lemma forceUpdate_set_while_stopped :
  let s := userStopped in
  let r := motionDetectionTask_iteration 20 s in
  ~ (forceUpdate (alertData (snd r)) = true <->
     (alertLevel (motionData (snd r)) <> lastBlinkRate s \/
      (alertSystemStopped (globals s) = false /\
       alertSystemStopped (globals (fst r)) = true))).
Proof.
  intros s r [H _].
  assert (Hf : forceUpdate (alertData (snd r)) = true)
    by (vm_compute; reflexivity).
  destruct (H Hf) as [Hl | [Hs _]].
  - apply Hl. vm_compute. reflexivity.
  - vm_compute in Hs. discriminate Hs.
Qed.

(** C6, amended.  The regular alert command of an iteration has
    [forceUpdate] set if and only if the alert level computed in the
    iteration differs from the one of the previous iteration, or the system
    is stopped when the command is built, whether the stop was taken in this
    iteration or in an earlier one. *)
Theorem forceUpdate_iff_level_changed_or_stopped :
  forall (t : Z) (s : System),
    let r := motionDetectionTask_iteration t s in
    blinkRate (alertData (snd r)) = alertLevel (motionData (snd r)) /\
    (forceUpdate (alertData (snd r)) = true <->
     (alertLevel (motionData (snd r)) <> lastBlinkRate s \/
      alertSystemStopped (globals (fst r)) = true)).
Proof.
  intros t s. cbv zeta. unfold motionDetectionTask_iteration.
  destruct (handleStopButton (globals s)) as [g1 stops].
  destruct (alertLevelOf _) as [[rate act] g4]. simpl.
  split; [reflexivity|].
  rewrite orb_true_iff, negb_true_iff, Z.eqb_neq. tauto.
Qed.

(** The stop command that the first block sends out of cycle, when the stop
    is taken, is [{0, false, true}]. *)
Lemma stop_command (g : Globals) :
  forall a, In a (snd (handleStopButton g)) -> a = mkAlertLedData 0 false true.
Proof.
  intro a. unfold handleStopButton. split_tests; simpl; intros []; auto.
  contradiction.
Qed.

(** ** Decay without motion *)

Lemma decayTicks_nonneg (ts : list Z) : forall s, 0 <= decayTicks ts s.
Proof.
  induction ts as [|t ts IH]; intro s; simpl; [lia|].
  specialize (IH (fst (motionDetectionTask_iteration t s))).
  destruct (updateDue t (globals s)); lia.
Qed.

(** One iteration with no interrupt pending and alerts active. *)
Lemma quiet_iteration (t : Z) (s : System) :
  let g := globals s in
  let g' := globals (step (MotionTask t) s) in
  alertSystemStopped g = false ->
  pirTriggered g = false ->
  stopButtonPressed g = false ->
  0 <= motionPersistenceCounter g <= 255 ->
  (updateDue t g = true -> pirSilent t g = true) ->
  alertSystemStopped g' = false /\
  pirTriggered g' = false /\
  stopButtonPressed g' = false /\
  motionPersistenceCounter g'
    = Z.max 0 (motionPersistenceCounter g
               - (if updateDue t g then 1 else 0)).
Proof.
  cbv zeta. intros Hst Hpir Hstop Hc Hsil. simpl.
  rewrite iteration_globals. rewrite alertLevelOf_globals.
  unfold afterEvents, handleStopButton, handlePirInterrupt.
  rewrite Hstop. simpl. rewrite Hpir. simpl.
  unfold counterDecrementCycle.
  destruct (updateDue t (globals s)) eqn:Ed.
  - rewrite (Hsil eq_refl).
    break_globals (globals s). subst.
    destruct (c >? 0) eqn:Ec; simpl.
    + apply gtb_true in Ec. rewrite u8_small by lia. simpl.
      repeat split; lia.
    + apply gtb_false in Ec. repeat split; lia.
  - rewrite Hst. break_globals (globals s). subst. repeat split; lia.
Qed.

(** C8.  From a state with alerts active, any counter value and no interrupt
    pending, run iterations of the motion task at any times with no motion
    event: if the PIR has been silent for the detection window at each decay
    tick, the counter ends at the start value minus the number of decay
    ticks, held at 0 once it is reached.  Each decay tick thus takes exactly
    1 off a positive counter and leaves a counter of 0 at 0. *)
Theorem decay_without_motion :
  forall (ts : list Z) (s : System),
    alertSystemStopped (globals s) = false ->
    pirTriggered (globals s) = false ->
    stopButtonPressed (globals s) = false ->
    0 <= motionPersistenceCounter (globals s) <= 255 ->
    silentAtTicks ts s ->
    motionPersistenceCounter (globals (run (map MotionTask ts) s))
      = Z.max 0 (motionPersistenceCounter (globals s) - decayTicks ts s).
Proof.
  induction ts as [|t ts IH]; intros s Hst Hpir Hstop Hc Hsil.
  - simpl. lia.
  - destruct Hsil as [Hnow Hrest].
    destruct (quiet_iteration t s Hst Hpir Hstop Hc Hnow)
      as (Hst' & Hpir' & Hstop' & Hc').
    change (run (map MotionTask (t :: ts)) s)
      with (run (map MotionTask ts) (step (MotionTask t) s)).
    change (decayTicks (t :: ts) s)
      with ((if updateDue t (globals s) then 1 else 0)
            + decayTicks ts (step (MotionTask t) s)).
    pose proof (decayTicks_nonneg ts (step (MotionTask t) s)) as Hk.
    rewrite IH; try assumption.
    + rewrite Hc'. destruct (updateDue t (globals s)); lia.
    + rewrite Hc'. destruct (updateDue t (globals s)); lia.
Qed.

Lemma decay_without_motion_witness :
  motionPersistenceCounter
    (globals (run (map MotionTask [20; 6000; 6020; 12000; 18000]) quietFromTwo))
  = Z.max 0 (2 - 3).
Proof.
  apply (decay_without_motion [20; 6000; 6020; 12000; 18000] quietFromTwo).
  - reflexivity.
  - reflexivity.
  - reflexivity.
  - simpl. lia.
  - vm_compute. repeat split; intros; (reflexivity || discriminate).
Defined.

(** The silence that C8 assumes is what the absence of motion gives on a
    clock that has not wrapped: when the last PIR trigger is no later than
    half a second after the last counter update (it is handled by the next
    iteration, 20 ms later), every decay tick, 6 s or more after that
    update, finds the PIR silent for more than the 5.5 s window. *)
Lemma quiet_iteration_clock (t : Z) (s : System) :
  let g := globals s in
  let g' := globals (step (MotionTask t) s) in
  alertSystemStopped g = false ->
  pirTriggered g = false ->
  stopButtonPressed g = false ->
  lastPirTrigger g' = lastPirTrigger g /\
  (lastCounterUpdate g' = lastCounterUpdate g \/ lastCounterUpdate g' = t).
Proof.
  cbv zeta. intros Hst Hpir Hstop. simpl.
  rewrite iteration_globals, alertLevelOf_globals.
  unfold afterEvents, handleStopButton, handlePirInterrupt.
  rewrite Hstop. simpl. rewrite Hpir. simpl.
  unfold counterDecrementCycle.
  destruct (updateDue t (globals s)).
  - destruct (pirSilent t (globals s)); break_globals (globals s); subst;
      split_tests; auto.
  - rewrite Hst. break_globals (globals s). auto.
Qed.

Remark no_motion_is_silent_at_ticks (ts : list Z) :
  forall s : System,
    alertSystemStopped (globals s) = false ->
    pirTriggered (globals s) = false ->
    stopButtonPressed (globals s) = false ->
    0 <= motionPersistenceCounter (globals s) <= 255 ->
    0 <= lastPirTrigger (globals s) <= lastCounterUpdate (globals s) + 500 ->
    0 <= lastCounterUpdate (globals s) ->
    onClock (lastCounterUpdate (globals s)) ts ->
    silentAtTicks ts s.
Proof.
  induction ts as [|t ts IH]; intros s Hst Hpir Hstop Hc Hp Hu Hclk;
    [exact I|].
  destruct Hclk as [Ht Hclk].
  assert (Hnow : updateDue t (globals s) = true ->
                 pirSilent t (globals s) = true).
  { unfold updateDue, pirSilent, u32, COUNTER_UPDATE_INTERVAL,
      PIR_DETECTION_WINDOW.
    rewrite !Z.geb_leb, !Z.leb_le.
    rewrite (Z.mod_small (t - lastCounterUpdate (globals s))) by lia.
    intro Hdue. rewrite Z.mod_small by lia. lia. }
  split; [exact Hnow|].
  destruct (quiet_iteration t s Hst Hpir Hstop Hc Hnow)
    as (Hst' & Hpir' & Hstop' & Hc').
  destruct (quiet_iteration_clock t s Hst Hpir Hstop) as (Hp' & Hu').
  apply IH; try assumption.
  - rewrite Hc'. destruct (updateDue t (globals s)); lia.
  - rewrite Hp'. destruct Hu' as [-> | ->]; lia.
  - destruct Hu' as [-> | ->]; lia.
  - destruct Hu' as [E | E]; rewrite E; [|exact Hclk].
    destruct ts as [|t' ts']; [exact I|].
    destruct Hclk as [Ht' Hclk]. split; [lia | exact Hclk].
Qed.

(** * Further properties of the code *)

(** ** The zones of the temperature model *)

(** The order of [float] through a positive finite number: what is at
    least [c] stays so when it grows, and what is above [c] too. *)
Lemma leb_finite_trans (mc : positive) (ec : Z) (a b : float) :
  SFleb (S754_finite false mc ec) a = true ->
  SFleb a b = true ->
  SFleb (S754_finite false mc ec) b = true.
Proof.
  unfold SFleb.
  destruct a as [sa | sa | | sa ma ea]; try destruct sa;
    destruct b as [sb | sb | | sb mb eb]; try destruct sb;
    cbn [SFcompare]; try discriminate; try reflexivity.
  change (Pos.compare_cont Eq mc ma) with (Pos.compare mc ma).
  change (Pos.compare_cont Eq ma mb) with (Pos.compare ma mb).
  change (Pos.compare_cont Eq mc mb) with (Pos.compare mc mb).
  destruct (Z.compare_spec ec ea); destruct (Z.compare_spec ea eb);
    destruct (Z.compare_spec ec eb); subst;
    try discriminate; try reflexivity; try lia;
    destruct (Pos.compare_spec mc ma); destruct (Pos.compare_spec ma mb);
    destruct (Pos.compare_spec mc mb); subst;
    try discriminate; try reflexivity; intros _ _; exfalso; lia.
Qed.

Lemma ltb_leb_finite_trans (mc : positive) (ec : Z) (a b : float) :
  SFltb (S754_finite false mc ec) a = true ->
  SFleb a b = true ->
  SFltb (S754_finite false mc ec) b = true.
Proof.
  unfold SFleb, SFltb.
  destruct a as [sa | sa | | sa ma ea]; try destruct sa;
    destruct b as [sb | sb | | sb mb eb]; try destruct sb;
    cbn [SFcompare]; try discriminate; try reflexivity.
  change (Pos.compare_cont Eq mc ma) with (Pos.compare mc ma).
  change (Pos.compare_cont Eq ma mb) with (Pos.compare ma mb).
  change (Pos.compare_cont Eq mc mb) with (Pos.compare mc mb).
  destruct (Z.compare_spec ec ea); destruct (Z.compare_spec ea eb);
    destruct (Z.compare_spec ec eb); subst;
    try discriminate; try reflexivity; try lia;
    destruct (Pos.compare_spec mc ma); destruct (Pos.compare_spec ma mb);
    destruct (Pos.compare_spec mc mb); subst;
    try discriminate; try reflexivity; intros _ _; exfalso; lia.
Qed.

Lemma CRITICAL_TEMP_THRESHOLD_bits :
  CRITICAL_TEMP_THRESHOLD = S754_finite false 9175040 (-18).
Proof. vm_compute. reflexivity. Qed.

(** The three tests of the model are nested: at least 35 is at least 30,
    and at least 30 is above 22. *)
Lemma critical_is_hot (t : float) :
  ge t CRITICAL_TEMP_THRESHOLD = true -> ge t HOT_TEMP_THRESHOLD = true.
Proof.
  unfold ge. rewrite HOT_TEMP_THRESHOLD_bits. intro H.
  apply (leb_finite_trans _ _ CRITICAL_TEMP_THRESHOLD t);
    [vm_compute; reflexivity | exact H].
Qed.

Lemma hot_is_above_comfortable (t : float) :
  ge t HOT_TEMP_THRESHOLD = true -> gt t COMFORTABLE_TEMP = true.
Proof.
  unfold ge, gt. rewrite COMFORTABLE_TEMP_bits. intro H.
  apply (ltb_leb_finite_trans _ _ HOT_TEMP_THRESHOLD t);
    [vm_compute; reflexivity | exact H].
Qed.

(** The factor with the tests that select it. *)
Lemma adjustmentFactor_zones (t : float) :
  (ge t CRITICAL_TEMP_THRESHOLD = true /\
   adjustmentFactor t = S754_finite false 10066330 (-25)) \/
  (ge t CRITICAL_TEMP_THRESHOLD = false /\
   ge t HOT_TEMP_THRESHOLD = true /\
   adjustmentFactor t = S754_finite false 8388608 (-24)) \/
  (ge t HOT_TEMP_THRESHOLD = false /\
   gt t COMFORTABLE_TEMP = false /\
   adjustmentFactor t = S754_finite false 8388608 (-23)) \/
  (ge t HOT_TEMP_THRESHOLD = false /\
   gt t COMFORTABLE_TEMP = true /\
   exists m N : positive,
     t = S754_finite false m (-19) /\
     11534336 < Zpos m < 15728640 /\
     Zpos N = 2 * (19922944 - Zpos m) /\
     adjustmentFactor t = S754_finite false N (-24)).
Proof.
  unfold adjustmentFactor.
  destruct (ge t CRITICAL_TEMP_THRESHOLD) eqn:Ec;
    [left; split; [reflexivity | vm_compute; reflexivity]|].
  destruct (ge t HOT_TEMP_THRESHOLD) eqn:Eh;
    [right; left; repeat split; vm_compute; reflexivity|].
  destruct (gt t COMFORTABLE_TEMP) eqn:Eg;
    [|right; right; left; repeat split; vm_compute; reflexivity].
  right; right; right. split; [reflexivity|]. split; [reflexivity|].
  destruct (interpolation_range t Eh Eg) as (m & -> & Hm).
  destruct (interpolation_exact m Hm) as (N & HN & E).
  exists m, N. repeat split; try lia. cbv zeta. exact E.
Qed.

(** The product of a [float] in [1, 32) by a factor in [0.5, 1), with the
    rounding error of the product: at most one half of the last place. *)
Lemma product_rounding (base : Z) (B N : positive) (eb : Z) :
  f32_of_Z base = S754_finite false B eb ->
  8388608 <= Zpos B < 16777216 ->
  8388608 <= Zpos N < 16777216 ->
  -23 <= eb <= -19 ->
  exists V : Z,
    trunc (f32_mul (f32_of_Z base) (S754_finite false N (-24)))
      = V / 2 ^ (24 - eb) /\
    2 * Z.abs (V - Zpos B * Zpos N) <= 16777216.
Proof.
  intros -> HB HN He. unfold f32_mul, SFmul. cbn [xorb].
  assert (Hd : 47 <= Zpos (digits2_pos (B * N)) <= 48).
  { pose proof (digits2_pos_bounds (B * N)) as [Dlo Dhi].
    rewrite Pos2Z.inj_mul in Dlo, Dhi.
    set (k := Zpos (digits2_pos (B * N))) in *.
    assert (Hlo : 8388608 * 8388608 <= Zpos B * Zpos N) by nia.
    assert (Hhi : Zpos B * Zpos N < 16777216 * 16777216) by nia.
    split.
    - destruct (Z_lt_ge_dec k 47) as [H|H]; [exfalso | lia].
      assert (2 ^ k <= 2 ^ 46) by (apply Z.pow_le_mono_r; lia).
      change (2 ^ 46) with (8388608 * 8388608) in *. lia.
    - destruct (Z_le_gt_dec k 48) as [H|H]; [lia | exfalso].
      assert (2 ^ 48 <= 2 ^ (k - 1)) by (apply Z.pow_le_mono_r; lia).
      change (2 ^ 48) with (16777216 * 16777216) in *. lia. }
  destruct (binary_round_aux_spec 24 128 ltac:(lia) false (B * N) (eb + -24))
    as (M & E & Hr & HE & HM & Herr & _); try lia.
  rewrite Hr.
  exists (Zpos M * 2 ^ (E - (eb + -24))). split.
  - rewrite (trunc_scaled M E (eb + -24)) by lia.
    replace (- (eb + -24)) with (24 - eb) by lia. reflexivity.
  - rewrite Pos2Z.inj_mul in Herr.
    assert (2 ^ (Zpos (digits2_pos (B * N)) - 24) <= 2 ^ 24)
      by (apply Z.pow_le_mono_r; lia).
    change (2 ^ 24) with 16777216 in *. lia.
Qed.

(** The truncated products in the interpolation zone lie between those of
    the factor 0.5 and those of the factor 1, and they go down with the
    factor. *)
Lemma trunc_interpolated_bounds (N : positive) :
  8388608 < Zpos N < 16777216 ->
  let f := S754_finite false N (-24) in
  2 <= trunc (f32_mul (f32_of_Z 5) f) <= 5 /\
  4 <= trunc (f32_mul (f32_of_Z 8) f) <= 8 /\
  6 <= trunc (f32_mul (f32_of_Z 12) f) <= 12 /\
  8 <= trunc (f32_mul (f32_of_Z 16) f) <= 16.
Proof.
  intros HN f. unfold f.
  destruct (product_rounding 5 10485760 N (-21)) as (V5 & -> & H5);
    [vm_compute; reflexivity | lia | lia | lia |].
  destruct (product_rounding 8 8388608 N (-20)) as (V8 & -> & H8);
    [vm_compute; reflexivity | lia | lia | lia |].
  destruct (product_rounding 12 12582912 N (-20)) as (V12 & -> & H12);
    [vm_compute; reflexivity | lia | lia | lia |].
  destruct (product_rounding 16 8388608 N (-19)) as (V16 & -> & H16);
    [vm_compute; reflexivity | lia | lia | lia |].
  change (2 ^ (24 - -21)) with 35184372088832.
  change (2 ^ (24 - -20)) with 17592186044416.
  change (2 ^ (24 - -19)) with 8796093022208.
  pose proof (div_interval V5 35184372088832 ltac:(lia)) as D5.
  pose proof (div_interval V8 17592186044416 ltac:(lia)) as D8.
  pose proof (div_interval V12 17592186044416 ltac:(lia)) as D12.
  pose proof (div_interval V16 8796093022208 ltac:(lia)) as D16.
  set (c5 := V5 / 35184372088832) in *.
  set (c8 := V8 / 17592186044416) in *.
  set (c12 := V12 / 17592186044416) in *.
  set (c16 := V16 / 8796093022208) in *.
  lia.
Qed.

Lemma trunc_product_monotone (base : Z) (B N1 N2 : positive) (eb : Z) :
  f32_of_Z base = S754_finite false B eb ->
  8388608 <= Zpos B < 16777216 ->
  8388608 <= Zpos N1 < 16777216 ->
  8388608 <= Zpos N2 < 16777216 ->
  -23 <= eb <= -19 ->
  Zpos N1 = Zpos N2 \/ Zpos N1 + 2 <= Zpos N2 ->
  trunc (f32_mul (f32_of_Z base) (S754_finite false N1 (-24)))
    <= trunc (f32_mul (f32_of_Z base) (S754_finite false N2 (-24))).
Proof.
  intros Hb HB H1 H2 He [E | Hlt].
  - injection E as ->. lia.
  - destruct (product_rounding base B N1 eb Hb HB H1 He) as (V1 & -> & E1).
    destruct (product_rounding base B N2 eb Hb HB H2 He) as (V2 & -> & E2).
    apply Z.div_le_mono; [apply Z.pow_pos_nonneg; lia|]. nia.
Qed.

(** The thresholds and the stop threshold, as the truncated products and
    their floors. *)
Lemma thresholds_as_trunc (t : float) (g : Globals) :
  fst (calculateTemperatureAdjustedThresholds t g)
    = mkThresholds
        (Z.max 1 (trunc (f32_mul (f32_of_Z 5) (adjustmentFactor t))))
        (Z.max 2 (trunc (f32_mul (f32_of_Z 8) (adjustmentFactor t))))
        (Z.max 3 (trunc (f32_mul (f32_of_Z 12) (adjustmentFactor t))))
        (Z.max 4 (trunc (f32_mul (f32_of_Z 16) (adjustmentFactor t)))) /\
  stopThresholdAt t
    = Z.max 2 (trunc (f32_mul (f32_of_Z 5) (adjustmentFactor t))).
Proof.
  unfold calculateTemperatureAdjustedThresholds, stopThresholdAt.
  cbn [fst]. unfold BASE_SLOW_BLINK_COUNTER, BASE_MEDIUM_BLINK_COUNTER,
    BASE_FAST_BLINK_COUNTER, BASE_CRITICAL_BLINK_COUNTER.
  rewrite !atLeast_max.
  destruct (calculated_in_range t 5) as [_ ->]; [simpl; tauto|].
  destruct (calculated_in_range t 8) as [_ ->]; [simpl; tauto|].
  destruct (calculated_in_range t 12) as [_ ->]; [simpl; tauto|].
  destruct (calculated_in_range t 16) as [_ ->]; [simpl; tauto|].
  split; reflexivity.
Qed.

(** The thresholds are constant on three of the four zones: (1, 2, 3, 4)
    with stop threshold 2 from 35 C up; (2, 4, 6, 8) with stop threshold 2
    from 30 C up to 35 C; the base values (5, 8, 12, 16) with stop threshold
    5 whenever the temperature is not above 22 C, a NaN included. *)
Theorem thresholds_by_zone :
  forall (t : float) (g : Globals),
    (ge t CRITICAL_TEMP_THRESHOLD = true ->
     fst (calculateTemperatureAdjustedThresholds t g) = mkThresholds 1 2 3 4 /\
     stopThresholdAt t = 2) /\
    (ge t HOT_TEMP_THRESHOLD = true ->
     ge t CRITICAL_TEMP_THRESHOLD = false ->
     fst (calculateTemperatureAdjustedThresholds t g) = mkThresholds 2 4 6 8 /\
     stopThresholdAt t = 2) /\
    (gt t COMFORTABLE_TEMP = false ->
     fst (calculateTemperatureAdjustedThresholds t g) = mkThresholds 5 8 12 16 /\
     stopThresholdAt t = 5).
Proof.
  intros t g.
  destruct (thresholds_as_trunc t g) as [-> ->].
  split; [|split].
  - intro Hc.
    destruct (adjustmentFactor_zones t)
      as [(_ & E) | [(H & _) | [(H & _) | (H & _)]]].
    + rewrite E. vm_compute. split; reflexivity.
    + congruence.
    + apply critical_is_hot in Hc. congruence.
    + apply critical_is_hot in Hc. congruence.
  - intros Hh Hc.
    destruct (adjustmentFactor_zones t)
      as [(H & _) | [(_ & _ & E) | [(H & _) | (H & _)]]]; try congruence.
    rewrite E. vm_compute. split; reflexivity.
  - intro Hg.
    destruct (adjustmentFactor_zones t)
      as [(H & _) | [(_ & H & _) | [(_ & _ & E) | (_ & H & _)]]].
    + apply critical_is_hot, hot_is_above_comfortable in H. congruence.
    + apply hot_is_above_comfortable in H. congruence.
    + rewrite E. vm_compute. split; reflexivity.
    + congruence.
Qed.

Lemma thresholds_by_zone_witness :
  (fst (calculateTemperatureAdjustedThresholds (celsius 40) initialGlobals)
     = mkThresholds 1 2 3 4) /\
  (fst (calculateTemperatureAdjustedThresholds (celsius 32) initialGlobals)
     = mkThresholds 2 4 6 8) /\
  (fst (calculateTemperatureAdjustedThresholds (celsius 10) initialGlobals)
     = mkThresholds 5 8 12 16).
Proof.
  split; [|split].
  - destruct (thresholds_by_zone (celsius 40) initialGlobals) as (H & _ & _).
    apply H. vm_compute. reflexivity.
  - destruct (thresholds_by_zone (celsius 32) initialGlobals) as (_ & H & _).
    apply H; vm_compute; reflexivity.
  - destruct (thresholds_by_zone (celsius 10) initialGlobals) as (_ & _ & H).
    apply H. vm_compute. reflexivity.
Defined.

(** The truncated products at the three constant factors. *)
Lemma trunc_at_constant_factors :
  let f03 := S754_finite false 10066330 (-25) in
  let f05 := S754_finite false 8388608 (-24) in
  let f10 := S754_finite false 8388608 (-23) in
  (trunc (f32_mul (f32_of_Z 5) f03) = 1 /\
   trunc (f32_mul (f32_of_Z 8) f03) = 2 /\
   trunc (f32_mul (f32_of_Z 12) f03) = 3 /\
   trunc (f32_mul (f32_of_Z 16) f03) = 4) /\
  (trunc (f32_mul (f32_of_Z 5) f05) = 2 /\
   trunc (f32_mul (f32_of_Z 8) f05) = 4 /\
   trunc (f32_mul (f32_of_Z 12) f05) = 6 /\
   trunc (f32_mul (f32_of_Z 16) f05) = 8) /\
  (trunc (f32_mul (f32_of_Z 5) f10) = 5 /\
   trunc (f32_mul (f32_of_Z 8) f10) = 8 /\
   trunc (f32_mul (f32_of_Z 12) f10) = 12 /\
   trunc (f32_mul (f32_of_Z 16) f10) = 16).
Proof.
  vm_compute. repeat split.
Qed.

(** The adjustment only lowers the thresholds: at no temperature is one of
    them above its base value, 5, 8, 12, 16, or the stop threshold above
    5. *)
Lemma thresholds_within (t : float) (g : Globals) :
  let th := fst (calculateTemperatureAdjustedThresholds t g) in
  1 <= slowThreshold th <= 5 /\
  2 <= mediumThreshold th <= 8 /\
  3 <= fastThreshold th <= 12 /\
  4 <= criticalThreshold th <= 16 /\
  2 <= stopThresholdAt t <= 5.
Proof.
  cbv zeta.
  destruct (thresholds_as_trunc t g) as [-> ->].
  cbn [slowThreshold mediumThreshold fastThreshold criticalThreshold].
  pose proof trunc_at_constant_factors as K. cbv zeta in K.
  destruct K as ((K1 & K2 & K3 & K4) & (K5 & K6 & K7 & K8)
                 & (K9 & K10 & K11 & K12)).
  destruct (adjustmentFactor_cases t) as [E | [E | [E | (N & HN & E)]]];
    rewrite E.
  - rewrite K1, K2, K3, K4. lia.
  - rewrite K5, K6, K7, K8. lia.
  - rewrite K9, K10, K11, K12. lia.
  - pose proof (trunc_interpolated_bounds N HN) as H. cbv zeta in H. lia.
Qed.

Theorem thresholds_at_most_base :
  forall (t : float) (g : Globals),
    let th := fst (calculateTemperatureAdjustedThresholds t g) in
    slowThreshold th <= BASE_SLOW_BLINK_COUNTER /\
    mediumThreshold th <= BASE_MEDIUM_BLINK_COUNTER /\
    fastThreshold th <= BASE_FAST_BLINK_COUNTER /\
    criticalThreshold th <= BASE_CRITICAL_BLINK_COUNTER /\
    stopThresholdAt t <= 5.
Proof.
  intros t g. pose proof (thresholds_within t g) as H. cbv zeta in *.
  unfold BASE_SLOW_BLINK_COUNTER, BASE_MEDIUM_BLINK_COUNTER,
    BASE_FAST_BLINK_COUNTER, BASE_CRITICAL_BLINK_COUNTER. lia.
Qed.

Lemma thresholds_antitone (t1 t2 : float) (g1 g2 : Globals) :
    ge t2 t1 = true ->
    let th1 := fst (calculateTemperatureAdjustedThresholds t1 g1) in
    let th2 := fst (calculateTemperatureAdjustedThresholds t2 g2) in
    slowThreshold th2 <= slowThreshold th1 /\
    mediumThreshold th2 <= mediumThreshold th1 /\
    fastThreshold th2 <= fastThreshold th1 /\
    criticalThreshold th2 <= criticalThreshold th1 /\
    stopThresholdAt t2 <= stopThresholdAt t1.
Proof.
  intros Hle. cbv zeta.
  destruct (thresholds_as_trunc t1 g1) as [-> ->].
  destruct (thresholds_as_trunc t2 g2) as [-> ->].
  cbn [slowThreshold mediumThreshold fastThreshold criticalThreshold].
  assert (Fc : ge t1 CRITICAL_TEMP_THRESHOLD = true ->
               ge t2 CRITICAL_TEMP_THRESHOLD = true).
  { unfold ge in *. rewrite CRITICAL_TEMP_THRESHOLD_bits.
    intro H. apply (leb_finite_trans _ _ t1 t2 H Hle). }
  assert (Fh : ge t1 HOT_TEMP_THRESHOLD = true ->
               ge t2 HOT_TEMP_THRESHOLD = true).
  { unfold ge in *. rewrite HOT_TEMP_THRESHOLD_bits.
    intro H. apply (leb_finite_trans _ _ t1 t2 H Hle). }
  assert (Fg : gt t1 COMFORTABLE_TEMP = true ->
               gt t2 COMFORTABLE_TEMP = true).
  { unfold ge, gt in *. rewrite COMFORTABLE_TEMP_bits.
    intro H. apply (ltb_leb_finite_trans _ _ t1 t2 H Hle). }
  pose proof trunc_at_constant_factors as K. cbv zeta in K.
  destruct K as ((K1 & K2 & K3 & K4) & (K5 & K6 & K7 & K8)
                 & (K9 & K10 & K11 & K12)).
  destruct (adjustmentFactor_zones t1)
    as [(A1 & E1) | [(A1 & B1 & E1) | [(B1 & C1 & E1)
        | (B1 & C1 & m1 & N1 & T1 & Hm1 & HN1 & E1)]]];
  destruct (adjustmentFactor_zones t2)
    as [(A2 & E2) | [(A2 & B2 & E2) | [(B2 & C2 & E2)
        | (B2 & C2 & m2 & N2 & T2 & Hm2 & HN2 & E2)]]];
  rewrite E1, E2.
  all: try (specialize (Fc A1)).
  all: try (specialize (Fh B1)).
  all: try (specialize (Fg C1)).
  all: try (pose proof (critical_is_hot t2 Fc)).
  all: try (pose proof (critical_is_hot t2 A2)).
  all: try congruence.
  all: try (pose proof (trunc_interpolated_bounds N1 ltac:(lia)) as L1;
            cbv zeta in L1).
  all: try (pose proof (trunc_interpolated_bounds N2 ltac:(lia)) as L2;
            cbv zeta in L2).
  all: rewrite ?K1, ?K2, ?K3, ?K4, ?K5, ?K6, ?K7, ?K8, ?K9, ?K10, ?K11, ?K12.
  all: try lia.
  (* both temperatures in the interpolation zone *)
  subst t1 t2. unfold ge, SFleb in Hle. cbn [SFcompare Z.compare] in Hle.
  change (Pos.compare_cont Eq m1 m2) with (Pos.compare m1 m2) in Hle.
  assert (Hm : Zpos m1 <= Zpos m2).
  { destruct (Pos.compare_spec m1 m2) as [H | H | H]; try discriminate Hle.
    - subst. lia.
    - apply Pos2Z.pos_lt_pos in H. lia. }
  assert (HN : Zpos N2 = Zpos N1 \/ Zpos N2 + 2 <= Zpos N1) by lia.
  pose proof (trunc_product_monotone 5 10485760 N2 N1 (-21)
                ltac:(vm_compute; reflexivity) ltac:(lia) ltac:(lia)
                ltac:(lia) ltac:(lia) HN) as M5.
  pose proof (trunc_product_monotone 8 8388608 N2 N1 (-20)
                ltac:(vm_compute; reflexivity) ltac:(lia) ltac:(lia)
                ltac:(lia) ltac:(lia) HN) as M8.
  pose proof (trunc_product_monotone 12 12582912 N2 N1 (-20)
                ltac:(vm_compute; reflexivity) ltac:(lia) ltac:(lia)
                ltac:(lia) ltac:(lia) HN) as M12.
  pose proof (trunc_product_monotone 16 8388608 N2 N1 (-19)
                ltac:(vm_compute; reflexivity) ltac:(lia) ltac:(lia)
                ltac:(lia) ltac:(lia) HN) as M16.
  lia.
Qed.

(** A hotter cabin never raises a threshold: when [t2 >= t1], each of the
    four thresholds and the stop threshold at [t2] is at most the one at
    [t1]. *)
Theorem thresholds_antitone_in_temperature :
  forall (t1 t2 : float) (g1 g2 : Globals),
    ge t2 t1 = true ->
    let th1 := fst (calculateTemperatureAdjustedThresholds t1 g1) in
    let th2 := fst (calculateTemperatureAdjustedThresholds t2 g2) in
    slowThreshold th2 <= slowThreshold th1 /\
    mediumThreshold th2 <= mediumThreshold th1 /\
    fastThreshold th2 <= fastThreshold th1 /\
    criticalThreshold th2 <= criticalThreshold th1 /\
    stopThresholdAt t2 <= stopThresholdAt t1.
Proof.
  intros t1 t2 g1 g2 H. exact (thresholds_antitone t1 t2 g1 g2 H).
Qed.

Lemma thresholds_antitone_in_temperature_witness :
  slowThreshold
    (fst (calculateTemperatureAdjustedThresholds (celsius 27) initialGlobals))
  <= slowThreshold
    (fst (calculateTemperatureAdjustedThresholds (celsius 24) initialGlobals)).
Proof.
  apply (thresholds_antitone_in_temperature (celsius 24) (celsius 27)
           initialGlobals initialGlobals).
  vm_compute. reflexivity.
Defined.

(** ** The alert level against the counter and the temperature *)

Lemma blinkRate_cascade (c : Z) (t : float) (g : Globals) :
  let th := fst (calculateTemperatureAdjustedThresholds t g) in
  fst (calculateBlinkRate c t g)
    = if c >=? criticalThreshold th then 4
      else if c >=? fastThreshold th then 3
      else if c >=? mediumThreshold th then 2
      else if c >=? slowThreshold th then 1
      else 0.
Proof. reflexivity. Qed.

Lemma blinkRate_range (c : Z) (t : float) (g : Globals) :
  0 <= fst (calculateBlinkRate c t g) <= 4 /\
  (1 <= fst (calculateBlinkRate c t g) -> 1 <= c).
Proof.
  rewrite blinkRate_cascade. cbv zeta.
  pose proof (thresholds_within t g) as W. cbv zeta in W.
  set (th := fst (calculateTemperatureAdjustedThresholds t g)) in *.
  rewrite !Z.geb_leb.
  destruct (Z.leb_spec (criticalThreshold th) c);
    destruct (Z.leb_spec (fastThreshold th) c);
    destruct (Z.leb_spec (mediumThreshold th) c);
    destruct (Z.leb_spec (slowThreshold th) c); lia.
Qed.

(** Whatever the temperature, the blink rate is within [0, 4]; it is 0 at
    counter 0, at least 1 from counter 5, at least 2 from 8, at least 3 from
    12 and 4 from 16 on; and it is at most 1 below counter 2, at most 2
    below 3 and at most 3 below 4. *)
Theorem blinkRate_bounds :
  forall (c : Z) (t : float) (g : Globals),
    let r := fst (calculateBlinkRate c t g) in
    0 <= r <= 4 /\
    (c <= 0 -> r = 0) /\
    (5 <= c -> 1 <= r) /\
    (8 <= c -> 2 <= r) /\
    (12 <= c -> 3 <= r) /\
    (16 <= c -> r = 4) /\
    (c < 2 -> r <= 1) /\
    (c < 3 -> r <= 2) /\
    (c < 4 -> r <= 3).
Proof.
  intros c t g. cbv zeta. rewrite blinkRate_cascade. cbv zeta.
  pose proof (thresholds_within t g) as W. cbv zeta in W.
  set (th := fst (calculateTemperatureAdjustedThresholds t g)) in *.
  rewrite !Z.geb_leb.
  destruct (Z.leb_spec (criticalThreshold th) c);
    destruct (Z.leb_spec (fastThreshold th) c);
    destruct (Z.leb_spec (mediumThreshold th) c);
    destruct (Z.leb_spec (slowThreshold th) c); lia.
Qed.

Lemma blinkRate_bounds_witness :
  fst (calculateBlinkRate 20 (celsius 10) initialGlobals) = 4 /\
  fst (calculateBlinkRate 0 (celsius 40) initialGlobals) = 0.
Proof.
  split.
  - apply (blinkRate_bounds 20 (celsius 10) initialGlobals). lia.
  - apply (blinkRate_bounds 0 (celsius 40) initialGlobals). lia.
Defined.

(** At a fixed counter a hotter cabin never lowers the blink rate. *)
Theorem blinkRate_monotone_in_temperature :
  forall (c : Z) (t1 t2 : float) (g1 g2 : Globals),
    ge t2 t1 = true ->
    fst (calculateBlinkRate c t1 g1) <= fst (calculateBlinkRate c t2 g2).
Proof.
  intros c t1 t2 g1 g2 Hle. rewrite !blinkRate_cascade. cbv zeta.
  pose proof (thresholds_antitone t1 t2 g1 g2 Hle) as A. cbv zeta in A.
  set (th1 := fst (calculateTemperatureAdjustedThresholds t1 g1)) in *.
  set (th2 := fst (calculateTemperatureAdjustedThresholds t2 g2)) in *.
  rewrite !Z.geb_leb.
  destruct (Z.leb_spec (criticalThreshold th1) c);
    destruct (Z.leb_spec (fastThreshold th1) c);
    destruct (Z.leb_spec (mediumThreshold th1) c);
    destruct (Z.leb_spec (slowThreshold th1) c);
    destruct (Z.leb_spec (criticalThreshold th2) c);
    destruct (Z.leb_spec (fastThreshold th2) c);
    destruct (Z.leb_spec (mediumThreshold th2) c);
    destruct (Z.leb_spec (slowThreshold th2) c); lia.
Qed.

Lemma blinkRate_monotone_in_temperature_witness :
  fst (calculateBlinkRate 6 (celsius 20) initialGlobals)
    <= fst (calculateBlinkRate 6 (celsius 33) initialGlobals).
Proof.
  apply (blinkRate_monotone_in_temperature 6 (celsius 20) (celsius 33)
           initialGlobals initialGlobals).
  vm_compute. reflexivity.
Defined.

(** ** The blink interval *)

Lemma getBlinkInterval_cases (rate : Z) :
  (rate = 1 /\ getBlinkInterval rate = 1000) \/
  (rate = 2 /\ getBlinkInterval rate = 500) \/
  (rate = 3 /\ getBlinkInterval rate = 200) \/
  (rate = 4 /\ getBlinkInterval rate = 100) \/
  ((rate < 1 \/ 4 < rate) /\ getBlinkInterval rate = 0).
Proof.
  unfold getBlinkInterval, SLOW_BLINK_INTERVAL, MEDIUM_BLINK_INTERVAL,
    FAST_BLINK_INTERVAL, CRITICAL_BLINK_INTERVAL.
  destruct (Z.eqb_spec rate 1); [tauto|].
  destruct (Z.eqb_spec rate 2); [tauto|].
  destruct (Z.eqb_spec rate 3); [tauto|].
  destruct (Z.eqb_spec rate 4); [tauto|].
  right; right; right; right. split; [lia | reflexivity].
Qed.

(** The interval is positive exactly for the rates 1 to 4, where it is at
    least 100 ms, and a higher rate has a strictly shorter interval. *)
Theorem getBlinkInterval_decreasing :
  forall r1 r2 : Z,
    (0 < getBlinkInterval r1 <-> 1 <= r1 <= 4) /\
    (1 <= r1 <= 4 -> 100 <= getBlinkInterval r1 <= 1000) /\
    (1 <= r1 -> r1 < r2 -> r2 <= 4 ->
     getBlinkInterval r2 < getBlinkInterval r1).
Proof.
  intros r1 r2.
  destruct (getBlinkInterval_cases r1) as [[? ->] | [[? ->] | [[? ->]
    | [[? ->] | [? ->]]]]];
  destruct (getBlinkInterval_cases r2) as [[? ->] | [[? ->] | [[? ->]
    | [[? ->] | [? ->]]]]]; lia.
Qed.

Lemma getBlinkInterval_decreasing_witness :
  getBlinkInterval 4 < getBlinkInterval 1.
Proof.
  apply (getBlinkInterval_decreasing 1 4); lia.
Defined.

(** ** The stop threshold along a run *)

Lemma afterEvents_stop_threshold (t : Z) (g : Globals) :
  ALERT_STOP_THRESHOLD (afterEvents t g) = ALERT_STOP_THRESHOLD g.
Proof.
  unfold afterEvents, counterDecrementCycle, handlePirInterrupt,
    handleStopButton.
  destruct g as [pir stop lp c lu st tmp hum val thr]. simpl.
  destruct stop; simpl; [destruct (c >? thr); simpl|];
    repeat match goal with
    | |- context [if ?b then _ else _] => destruct b; simpl
    end; reflexivity.
Qed.

Lemma stopThresholdAt_range (t : float) : 2 <= stopThresholdAt t <= 5.
Proof.
  pose proof (thresholds_within t initialGlobals) as W. cbv zeta in W. lia.
Qed.

Lemma step_stop_threshold (ev : Event) (s : System) :
  stopThresholdInRange (globals s) ->
  stopThresholdInRange (globals (step ev s)).
Proof.
  unfold stopThresholdInRange. intro H.
  destruct ev as [now | | t | t r |]; simpl.
  - exact H.
  - unfold stopButtonISR.
    destruct (_ >? _); simpl; exact H.
  - rewrite iteration_globals, alertLevelOf_globals.
    destruct (alertSystemStopped (afterEvents t (globals s))).
    + rewrite afterEvents_stop_threshold. exact H.
    + simpl. apply stopThresholdAt_range.
  - unfold temperatureTask_iteration. simpl. apply stopThresholdAt_range.
  - unfold loop_report. simpl. apply stopThresholdAt_range.
Qed.

Lemma run_stop_threshold (evs : list Event) :
  forall s, stopThresholdInRange (globals s) ->
            stopThresholdInRange (globals (run evs s)).
Proof.
  induction evs as [|ev evs IH]; intros s H; simpl.
  - exact H.
  - apply IH, step_stop_threshold, H.
Qed.

(** In every state reached from boot the stop threshold is within [2, 5]:
    a press of the button is never taken at a counter of 2 or less, where
    the interrupt leaves the globals as they are and a pending press is
    dropped by the task, and it is always accepted at a counter of 6 or
    more. *)
Theorem stop_button_window :
  forall (start : Z) (evs : list Event),
    let g := globals (run evs (bootSystem start)) in
    2 <= ALERT_STOP_THRESHOLD g <= 5 /\
    (motionPersistenceCounter g <= 2 ->
     stopButtonISR g = g /\
     alertSystemStopped (fst (handleStopButton g)) = alertSystemStopped g /\
     snd (handleStopButton g) = []) /\
    (6 <= motionPersistenceCounter g ->
     stopButtonPressed (stopButtonISR g) = true /\
     alertSystemStopped (fst (stopEvent g)) = true).
Proof.
  intros start evs g.
  assert (H : stopThresholdInRange g).
  { apply run_stop_threshold. unfold stopThresholdInRange. simpl. lia. }
  unfold stopThresholdInRange in H. split; [exact H|].
  unfold stopEvent, stopButtonISR, handleStopButton.
  destruct g as [pir stop lp c lu st tmp hum val thr]. simpl in *.
  split; intro Hc.
  - assert (E : (c >? thr) = false) by (apply gtb_false; lia).
    rewrite E. destruct stop; simpl; rewrite ?E; repeat split.
  - assert (E : (c >? thr) = true) by (apply gtb_true; lia).
    rewrite E. simpl. rewrite E. simpl. split; reflexivity.
Qed.

Lemma stop_button_window_witness :
  stopButtonISR (globals (run (motionBurst 2) (bootSystem 0)))
    = globals (run (motionBurst 2) (bootSystem 0)) /\
  stopButtonPressed
    (stopButtonISR (globals (run (motionBurst 6) (bootSystem 0)))) = true.
Proof.
  split.
  - destruct (stop_button_window 0 (motionBurst 2)) as (_ & H & _).
    apply H. vm_compute. intro E. discriminate E.
  - destruct (stop_button_window 0 (motionBurst 6)) as (_ & _ & H).
    apply H. vm_compute. intro E. discriminate E.
Defined.

(** ** Who writes what *)

(** The counter, the mode, the time of the last counter update and the last
    blink rate are written by the iterations of the motion task only: the
    two interrupts, the temperature task and the status report leave them as
    they are.  The interrupts and the status report moreover leave the
    temperature and the humidity alone, and no step at all takes
    [temperatureDataValid] back to false. *)
Theorem engine_state_written_by_motion_task_only :
  forall (ev : Event) (s : System),
    ((forall t, ev <> MotionTask t) ->
     motionPersistenceCounter (globals (step ev s))
       = motionPersistenceCounter (globals s) /\
     alertSystemStopped (globals (step ev s)) = alertSystemStopped (globals s) /\
     lastCounterUpdate (globals (step ev s)) = lastCounterUpdate (globals s) /\
     lastBlinkRate (step ev s) = lastBlinkRate s) /\
    ((forall t r, ev <> TemperatureTask t r) ->
     currentTemperature (globals (step ev s)) = currentTemperature (globals s) /\
     currentHumidity (globals (step ev s)) = currentHumidity (globals s) /\
     lastSensorRead (step ev s) = lastSensorRead s) /\
    (temperatureDataValid (globals s) = true ->
     temperatureDataValid (globals (step ev s)) = true).
Proof.
  intros ev s. split; [|split].
  - intro Hev. destruct ev as [now | | t | t r |]; simpl.
    + repeat split.
    + unfold stopButtonISR. destruct (_ >? _); repeat split.
    + exfalso. apply (Hev t). reflexivity.
    + unfold temperatureTask_iteration.
      destruct (u32 (t - lastSensorRead s) >=? 3000); simpl;
        [destruct r as [[tc h]|]|]; simpl; repeat split.
    + unfold loop_report. simpl. repeat split.
  - intro Hev. destruct ev as [now | | t | t r |]; simpl.
    + repeat split.
    + unfold stopButtonISR. destruct (_ >? _); repeat split.
    + rewrite iteration_globals, alertLevelOf_globals.
      assert (F : currentTemperature (afterEvents t (globals s))
                  = currentTemperature (globals s) /\
                  currentHumidity (afterEvents t (globals s))
                  = currentHumidity (globals s)).
      { unfold afterEvents, counterDecrementCycle, handlePirInterrupt,
          handleStopButton.
        destruct (globals s) as [pir stop lp c lu st tmp hum val thr]. simpl.
        destruct stop; simpl; [destruct (c >? thr); simpl|];
          repeat match goal with
          | |- context [if ?b then _ else _] => destruct b; simpl
          end; split; reflexivity. }
      destruct F as [F1 F2].
      destruct (alertSystemStopped (afterEvents t (globals s))); simpl;
        rewrite ?F1, ?F2; repeat split.
      * unfold motionDetectionTask_iteration.
        destruct (handleStopButton (globals s)) as [g1 stops].
        destruct (alertLevelOf _) as [[rate act] g4]. reflexivity.
      * unfold motionDetectionTask_iteration.
        destruct (handleStopButton (globals s)) as [g1 stops].
        destruct (alertLevelOf _) as [[rate act] g4]. reflexivity.
    + exfalso. apply (Hev t r). reflexivity.
    + unfold loop_report. simpl. repeat split.
  - intro Hv. destruct ev as [now | | t | t r |]; simpl.
    + exact Hv.
    + unfold stopButtonISR. destruct (_ >? _); exact Hv.
    + rewrite iteration_globals, alertLevelOf_globals.
      assert (F : temperatureDataValid (afterEvents t (globals s))
                  = temperatureDataValid (globals s)).
      { unfold afterEvents, counterDecrementCycle, handlePirInterrupt,
          handleStopButton.
        destruct (globals s) as [pir stop lp c lu st tmp hum val thr]. simpl.
        destruct stop; simpl; [destruct (c >? thr); simpl|];
          repeat match goal with
          | |- context [if ?b then _ else _] => destruct b; simpl
          end; reflexivity. }
      destruct (alertSystemStopped (afterEvents t (globals s))); simpl;
        rewrite F; exact Hv.
    + unfold temperatureTask_iteration.
      destruct (u32 (t - lastSensorRead s) >=? 3000); simpl;
        [destruct r as [[tc h]|]|]; simpl; try exact Hv; reflexivity.
    + unfold loop_report. simpl. exact Hv.
Qed.

Lemma engine_state_written_by_motion_task_only_witness :
  motionPersistenceCounter (globals (step StopButtonISR hotCar)) = 18 /\
  currentTemperature (globals (step (MotionTask 0) hotCar)) = celsius 35.
Proof.
  split.
  - destruct (engine_state_written_by_motion_task_only StopButtonISR hotCar)
      as (H & _ & _).
    destruct H as (H & _); [intros t E; discriminate E|].
    rewrite H. reflexivity.
  - destruct (engine_state_written_by_motion_task_only (MotionTask 0) hotCar)
      as (_ & H & _).
    destruct H as (H & _); [intros t r E; discriminate E|].
    rewrite H. reflexivity.
Defined.

(** ** The temperature task *)

(** An iteration of the temperature task reads the sensor only when 3 s
    have passed since the last read, and counts a failed read as a read, so
    that it is not retried before another 3 s.  A failed read and an
    iteration that does not read keep the temperature, the humidity and the
    validity flag; a successful read stores its two values and sets the
    flag.  In every case the iteration ends with the stop threshold of the
    temperature it leaves in [currentTemperature], and a further iteration
    less than 3 s after the last read changes nothing at all. *)
Theorem temperatureTask_keeps_last_good_reading :
  forall (t : Z) (reading : option (float * float)) (s : System),
    let due := u32 (t - lastSensorRead s) >=? 3000 in
    let s' := temperatureTask_iteration t reading s in
    (due = false \/ reading = None ->
     currentTemperature (globals s') = currentTemperature (globals s) /\
     currentHumidity (globals s') = currentHumidity (globals s) /\
     temperatureDataValid (globals s') = temperatureDataValid (globals s)) /\
    (forall tc h, due = true -> reading = Some (tc, h) ->
     currentTemperature (globals s') = tc /\
     currentHumidity (globals s') = h /\
     temperatureDataValid (globals s') = true) /\
    (due = true -> lastSensorRead s' = t) /\
    (due = false -> lastSensorRead s' = lastSensorRead s) /\
    ALERT_STOP_THRESHOLD (globals s')
      = stopThresholdAt (currentTemperature (globals s')) /\
    (forall t2 reading2,
       (u32 (t2 - lastSensorRead s') >=? 3000) = false ->
       temperatureTask_iteration t2 reading2 s' = s').
Proof.
  intros t reading s. cbv zeta.
  assert (Hidle : forall t2 reading2 s',
            ALERT_STOP_THRESHOLD (globals s')
              = stopThresholdAt (currentTemperature (globals s')) ->
            (u32 (t2 - lastSensorRead s') >=? 3000) = false ->
            temperatureTask_iteration t2 reading2 s' = s').
  { intros t2 reading2 [g lb ls] Hthr Hnd. unfold temperatureTask_iteration.
    cbn [lastSensorRead globals lastBlinkRate] in *. rewrite Hnd.
    rewrite (surjective_pairing (calculateTemperatureAdjustedThresholds _ _)).
    rewrite calculator_globals. rewrite <- Hthr.
    destruct g; reflexivity. }
  assert (Hthr : ALERT_STOP_THRESHOLD
                   (globals (temperatureTask_iteration t reading s))
                 = stopThresholdAt
                     (currentTemperature
                        (globals (temperatureTask_iteration t reading s))))
    by reflexivity.
  split; [|split; [|split; [|split; [|split]]]];
    [| | | | exact Hthr | intros t2 reading2; apply Hidle, Hthr];
    unfold temperatureTask_iteration;
    destruct (u32 (t - lastSensorRead s) >=? 3000); simpl;
    try destruct reading as [[tc h]|]; simpl.
  all: try (intros [E | E]; discriminate E).
  all: try (intros tc' h' E; discriminate E).
  all: try (intros tc' h' _ E; injection E as <- <-; repeat split).
  all: try (intros tc' h' _ E; discriminate E).
  all: try (intro E; discriminate E).
  all: try (intros _; repeat split).
Qed.

Lemma temperatureTask_keeps_last_good_reading_witness :
  currentTemperature
    (globals (temperatureTask_iteration 3000 None hotCar)) = celsius 35 /\
  currentTemperature
    (globals (temperatureTask_iteration 3000
                (Some (celsius 20, celsius 40)) hotCar)) = celsius 20.
Proof.
  split.
  - destruct (temperatureTask_keeps_last_good_reading 3000 None hotCar)
      as (H & _).
    destruct H as (H & _); [right; reflexivity|]. rewrite H. reflexivity.
  - destruct (temperatureTask_keeps_last_good_reading 3000
                (Some (celsius 20, celsius 40)) hotCar) as (_ & H & _).
    destruct (H (celsius 20) (celsius 40)) as (H1 & _);
      [vm_compute; reflexivity | reflexivity | exact H1].
Defined.

(** ** Motion events within an iteration *)

Lemma motionISR_twice (a b : Z) (g : Globals) :
  motionISR b (motionISR a g) = motionISR b g.
Proof. destruct g. reflexivity. Qed.

(** A motion interrupt handled by the next iteration, with alerts active
    and no press of the button pending: the counter goes up by one, up to
    20, the interrupt flag is cleared, the 6-second cycle restarts at the
    time of the iteration, and the counter is not decremented in that
    iteration. *)
Theorem motion_event_counts_once :
  forall (now t : Z) (s : System),
    alertSystemStopped (globals s) = false ->
    stopButtonPressed (globals s) = false ->
    0 <= motionPersistenceCounter (globals s) <= 20 ->
    let s' := run [MotionISR now; MotionTask t] s in
    motionPersistenceCounter (globals s')
      = Z.min (motionPersistenceCounter (globals s) + 1) 20 /\
    pirTriggered (globals s') = false /\
    alertSystemStopped (globals s') = false /\
    lastCounterUpdate (globals s') = t /\
    lastPirTrigger (globals s') = now.
Proof.
  intros now t s Hst Hstop Hc. cbv zeta. simpl.
  rewrite iteration_globals, alertLevelOf_globals.
  unfold afterEvents, handleStopButton, motionISR. simpl.
  rewrite Hstop. simpl. unfold handlePirInterrupt. simpl. rewrite Hst. simpl.
  unfold counterDecrementCycle, updateDue. simpl.
  assert (Hnd : forall g', lastCounterUpdate g' = t ->
            (u32 (t - lastCounterUpdate g') >=? COUNTER_UPDATE_INTERVAL) = false).
  { intros g' ->. rewrite Z.sub_diag. reflexivity. }
  destruct (motionPersistenceCounter (globals s) <? MAX_PERSISTENCE_COUNTER)
    eqn:Elt; simpl.
  - apply Z.ltb_lt in Elt. unfold MAX_PERSISTENCE_COUNTER in Elt.
    rewrite Z.sub_diag. simpl. rewrite Hst. simpl.
    rewrite u8_small by lia. repeat split; try reflexivity; try assumption; lia.
  - apply Z.ltb_ge in Elt. unfold MAX_PERSISTENCE_COUNTER in Elt.
    rewrite Z.sub_diag. simpl. rewrite Hst. simpl.
    repeat split; try reflexivity; try assumption; lia.
Qed.

Lemma motion_event_counts_once_witness :
  motionPersistenceCounter
    (globals (run [MotionISR 5; MotionTask 20] (bootSystem 0)))
  = Z.min (0 + 1) 20.
Proof.
  apply (motion_event_counts_once 5 20 (bootSystem 0)).
  - reflexivity.
  - reflexivity.
  - simpl. lia.
Defined.

(** Motion interrupts between two iterations coalesce: however many of
    them are taken, the next iteration sees one event, stamped with the time
    of the last one. *)
Theorem motion_interrupts_coalesce :
  forall (times : list Z) (last t : Z) (s : System),
    run (map MotionISR times ++ [MotionISR last; MotionTask t]) s
      = run [MotionISR last; MotionTask t] s.
Proof.
  intros times last t. induction times as [|a times IH]; intro s.
  - reflexivity.
  - change (run (map MotionISR (a :: times) ++ [MotionISR last; MotionTask t]) s)
      with (run (map MotionISR times ++ [MotionISR last; MotionTask t])
              (step (MotionISR a) s)).
    rewrite IH. simpl. unfold onGlobals. simpl.
    rewrite motionISR_twice. reflexivity.
Qed.



(** ** What an iteration sends *)

(** The outputs of an iteration in terms of the globals it ends with. *)
Lemma iteration_outputs (t : Z) (s : System) :
  let r := motionDetectionTask_iteration t s in
  let g := afterEvents t (globals s) in
  let rate :=
    if alertSystemStopped g then 0
    else fst (calculateBlinkRate (motionPersistenceCounter g)
                (currentTemperature g) g) in
  let act :=
    negb (alertSystemStopped g)
    && (motionPersistenceCounter g >=? MIN_COUNTER_FOR_ALERT) in
  motionPersistenceCounter (globals (fst r)) = motionPersistenceCounter g /\
  alertSystemStopped (globals (fst r)) = alertSystemStopped g /\
  lastBlinkRate (fst r) = rate /\
  motionData (snd r)
    = mkMotionData act t (motionPersistenceCounter g) rate
        (alertSystemStopped g) (currentTemperature g) (currentHumidity g)
        (statusMessage g rate) /\
  alertData (snd r)
    = mkAlertLedData rate act
        (negb (rate =? lastBlinkRate s) || alertSystemStopped g) /\
  statusLed (snd r)
    = (motionPersistenceCounter g >? 0) && negb (alertSystemStopped g) /\
  stopAlert (snd r) = snd (handleStopButton (globals s)).
Proof.
  cbv zeta. unfold motionDetectionTask_iteration, afterEvents.
  destruct (handleStopButton (globals s)) as [g1 stops]. cbn [fst snd].
  set (g3 := counterDecrementCycle t (handlePirInterrupt t g1)).
  unfold alertLevelOf, calculateBlinkRate.
  destruct (alertSystemStopped g3) eqn:Est; cbn [negb].
  - cbn [fst snd globals lastBlinkRate motionData alertData statusLed stopAlert
         andb]. rewrite Est. unfold statusMessage. rewrite Est.
    rewrite !andb_false_r. repeat split.
  - destruct (calculateTemperatureAdjustedThresholds (currentTemperature g3) g3)
      as [th g'] eqn:Ecalc.
    assert (Eg : g' = set_ALERT_STOP_THRESHOLD
                        (stopThresholdAt (currentTemperature g3)) g3).
    { rewrite <- calculator_globals. rewrite Ecalc. reflexivity. }
    subst g'.
    cbn [fst snd globals lastBlinkRate motionData alertData statusLed stopAlert
         motionPersistenceCounter alertSystemStopped currentTemperature
         currentHumidity set_ALERT_STOP_THRESHOLD andb].
    rewrite Est. rewrite !andb_true_r. unfold statusMessage.
    cbn [alertSystemStopped motionPersistenceCounter set_ALERT_STOP_THRESHOLD].
    rewrite Est. repeat split.
Qed.

(** The record and the regular command of an iteration agree with each
    other and with the state the iteration ends in.  They carry the same
    level, within [0, 4], which is also the level kept for the next
    iteration; the record carries the counter and the mode of the globals;
    [motionDetected], [active] and the status LED are one and the same
    boolean: alerts active and counter at least 1.  A positive level comes
    with [active] set, and a stopped system gives level 0, [active] false,
    the status LED off and the message "ALERT STOPPED", which no active
    system gives. *)
Theorem iteration_outputs_coherent :
  forall (t : Z) (s : System),
    let r := motionDetectionTask_iteration t s in
    let d := motionData (snd r) in
    let a := alertData (snd r) in
    let g' := globals (fst r) in
    persistenceCounter d = motionPersistenceCounter g' /\
    data_alertSystemStopped d = alertSystemStopped g' /\
    alertLevel d = blinkRate a /\
    lastBlinkRate (fst r) = blinkRate a /\
    0 <= blinkRate a <= 4 /\
    motionDetected d = active a /\
    statusLed (snd r) = active a /\
    active a
      = negb (alertSystemStopped g') && (1 <=? motionPersistenceCounter g') /\
    (0 < blinkRate a -> active a = true) /\
    (alertSystemStopped g' = true ->
     blinkRate a = 0 /\ active a = false /\ forceUpdate a = true) /\
    (message d = "ALERT STOPPED"%string <-> alertSystemStopped g' = true).
Proof.
  intros t s. cbv zeta.
  destruct (iteration_outputs t s) as (Hc & Hst & Hl & Hd & Ha & Hled & _).
  cbv zeta in *. rewrite Hd, Ha, Hled, Hc, Hst, Hl.
  set (g := afterEvents t (globals s)) in *.
  cbn [persistenceCounter data_alertSystemStopped alertLevel blinkRate
       motionDetected active forceUpdate message].
  unfold MIN_COUNTER_FOR_ALERT. rewrite Z.geb_leb.
  assert (Hgt : (motionPersistenceCounter g >? 0)
                = (1 <=? motionPersistenceCounter g)).
  { rewrite Z.gtb_ltb. destruct (Z.ltb_spec 0 (motionPersistenceCounter g));
      destruct (Z.leb_spec 1 (motionPersistenceCounter g)); try reflexivity; lia. }
  rewrite Hgt.
  destruct (alertSystemStopped g) eqn:Est; cbn [negb andb].
  - rewrite andb_false_r. unfold statusMessage. rewrite Est.
    repeat split; try lia; try reflexivity;
      try (rewrite orb_true_r; reflexivity).
  - rewrite andb_true_r.
    pose proof (blinkRate_range (motionPersistenceCounter g)
                  (currentTemperature g) g) as [Hr Hpos].
    repeat split; try lia; try reflexivity;
      try (intro H; discriminate H);
      try (intro H; apply Z.leb_le; apply Hpos; lia).
    unfold statusMessage. rewrite Est.
    repeat match goal with
    | |- context [if ?b then _ else _] => destruct b
    end; intro H; discriminate H.
Qed.

Lemma iteration_outputs_coherent_witness :
  active (alertData (snd (motionDetectionTask_iteration 0 hotCar))) = true /\
  blinkRate
    (alertData (snd (motionDetectionTask_iteration 20 userStopped))) = 0.
Proof.
  split.
  - destruct (iteration_outputs_coherent 0 hotCar)
      as (_ & _ & _ & _ & _ & _ & _ & _ & H & _).
    apply H. vm_compute. reflexivity.
  - destruct (iteration_outputs_coherent 20 userStopped)
      as (_ & _ & _ & _ & _ & _ & _ & _ & _ & H & _).
    apply H. vm_compute. reflexivity.
Defined.

(** ** The alert LED task *)

Lemma receiveCommand_invariant (a : AlertLedData) (now : Z) (l : LedTask) :
  ledInvariant l -> ledInvariant (receiveCommand a now l).
Proof.
  unfold ledInvariant, receiveCommand. intros (Hp & Hoff & Hi).
  destruct (active a && (blinkRate a >? 0)).
  - assert (K : In (getBlinkInterval (blinkRate a)) [0; 100; 200; 500; 1000]).
    { destruct (getBlinkInterval_cases (blinkRate a))
        as [[_ ->] | [[_ ->] | [[_ ->] | [[_ ->] | [_ ->]]]]]; simpl; tauto. }
    destruct (forceUpdate a); cbn [alertLedPin ledState blinkingActive
      currentInterval]; (split; [exact Hp|]); (split; [discriminate | exact K]).
  - cbn [alertLedPin ledState blinkingActive currentInterval].
    split; [reflexivity|]. split; [reflexivity | exact Hi].
Qed.

Lemma blinkStep_invariant (t : Z) (l : LedTask) :
  ledInvariant l -> ledInvariant (blinkStep t l).
Proof.
  unfold ledInvariant, blinkStep. intros (Hp & Hoff & Hi).
  destruct (blinkingActive l && (currentInterval l >? 0)) eqn:E;
    [|tauto].
  destruct (u32 (t - lastBlinkTime l) >=? currentInterval l); [|tauto].
  apply andb_prop in E. destruct E as [E _].
  cbn [alertLedPin ledState blinkingActive currentInterval].
  split; [reflexivity|]. split; [congruence | exact Hi].
Qed.

Lemma ledRun_invariant (its : list (option AlertLedData * Z * Z)) :
  forall l, ledInvariant l -> ledInvariant (ledRun its l).
Proof.
  induction its as [|[[rc tr] tc] its IH]; intros l H; simpl.
  - exact H.
  - apply IH. unfold alertLedTask_iteration. apply blinkStep_invariant.
    destruct rc; [apply receiveCommand_invariant|]; exact H.
Qed.

(** Along every run of the LED task, whatever the commands and the times:
    the pin is at the level of [ledState]; the LED is off whenever the task
    is not blinking; and the interval in use is 0 or one of the four
    intervals of the rates. *)
Theorem led_pin_follows_state :
  forall its : list (option AlertLedData * Z * Z),
    let l := ledRun its ledBoot in
    alertLedPin l = ledState l /\
    (blinkingActive l = false -> alertLedPin l = false) /\
    In (currentInterval l) [0; 100; 200; 500; 1000].
Proof.
  intros its l.
  assert (H : ledInvariant l).
  { apply ledRun_invariant. unfold ledInvariant. simpl. tauto. }
  destruct H as (Hp & Hoff & Hi). split; [exact Hp|]. split; [|exact Hi].
  intro H. rewrite Hp. apply Hoff, H.
Qed.

Lemma led_pin_follows_state_witness :
  alertLedPin
    (ledRun [(Some (mkAlertLedData 4 true true), 0, 100);
             (Some (mkAlertLedData 0 false true), 120, 125)] ledBoot) = false.
Proof.
  apply (led_pin_follows_state
           [(Some (mkAlertLedData 4 true true), 0, 100);
            (Some (mkAlertLedData 0 false true), 120, 125)]).
  reflexivity.
Defined.

Lemma ledRun_idle_off (its : list (option AlertLedData * Z * Z)) :
  forall l,
    blinkingActive l = false ->
    Forall (fun it =>
              match fst (fst it) with
              | Some a => active a && (blinkRate a >? 0) = false
              | None => True
              end) its ->
    blinkingActive (ledRun its l) = false /\
    (ledState l = false -> alertLedPin l = false ->
     ledState (ledRun its l) = false /\ alertLedPin (ledRun its l) = false).
Proof.
  induction its as [|[[rc tr] tc] its IH]; intros l Hb Hall.
  - simpl. tauto.
  - inversion Hall as [|x xs Hx Hxs]; subst. cbn [fst] in Hx.
    cbn [ledRun]. unfold alertLedTask_iteration.
    destruct rc as [a|].
    + assert (E : receiveCommand a tr l
                  = mkLedTask false (lastBlinkTime l) (currentInterval l)
                      false false).
      { unfold receiveCommand. rewrite Hx. reflexivity. }
      rewrite E. unfold blinkStep. cbn [blinkingActive andb].
      destruct (IH (mkLedTask false (lastBlinkTime l) (currentInterval l)
                      false false) eq_refl Hxs) as (H1 & H2).
      split; [exact H1|]. intros _ _. apply H2; reflexivity.
    + unfold blinkStep. rewrite Hb. cbn [andb].
      destruct (IH l Hb Hxs) as (H1 & H2).
      split; [exact H1 | exact H2].
Qed.

(** A command that is not active, or whose rate is 0, switches the LED off
    in the iteration that receives it, and the LED stays off through every
    later iteration that receives nothing or another such command, whatever
    the times. *)
Theorem led_off_until_next_alert :
  forall (a : AlertLedData) (tr tc : Z) (l : LedTask)
         (its : list (option AlertLedData * Z * Z)),
    active a && (blinkRate a >? 0) = false ->
    Forall (fun it =>
              match fst (fst it) with
              | Some a' => active a' && (blinkRate a' >? 0) = false
              | None => True
              end) its ->
    let l' := ledRun its (alertLedTask_iteration (Some a) tr tc l) in
    ledState l' = false /\ alertLedPin l' = false /\ blinkingActive l' = false.
Proof.
  intros a tr tc l its Ha Hall. cbv zeta.
  assert (E : alertLedTask_iteration (Some a) tr tc l
              = mkLedTask false (lastBlinkTime l) (currentInterval l)
                  false false).
  { unfold alertLedTask_iteration, receiveCommand. rewrite Ha.
    unfold blinkStep. reflexivity. }
  rewrite E.
  destruct (ledRun_idle_off its
              (mkLedTask false (lastBlinkTime l) (currentInterval l)
                 false false) eq_refl Hall) as (H1 & H2).
  destruct (H2 eq_refl eq_refl) as [H3 H4]. tauto.
Qed.

Lemma led_off_until_next_alert_witness :
  alertLedPin
    (ledRun [(None, 0, 130); (Some (mkAlertLedData 0 true false), 140, 145)]
       (alertLedTask_iteration (Some (mkAlertLedData 0 false true)) 120 125
          (mkLedTask true 100 100 true true))) = false.
Proof.
  apply (led_off_until_next_alert (mkAlertLedData 0 false true) 120 125
           (mkLedTask true 100 100 true true)
           [(None, 0, 130); (Some (mkAlertLedData 0 true false), 140, 145)]).
  - reflexivity.
  - repeat constructor.
Defined.

(** The LED changes level in the blink block only when the task is
    blinking and at least the interval in use, which is then 100 ms or
    more, has passed since [lastBlinkTime]; the change restarts the interval
    at the time of the iteration.  When less has passed the block changes
    nothing. *)
Theorem led_toggles_no_faster_than_interval :
  forall (its : list (option AlertLedData * Z * Z)) (currentTime : Z),
    let l := ledRun its ledBoot in
    let l' := blinkStep currentTime l in
    (ledState l' <> ledState l ->
     blinkingActive l = true /\
     100 <= currentInterval l <= u32 (currentTime - lastBlinkTime l) /\
     lastBlinkTime l' = currentTime /\
     alertLedPin l' = negb (alertLedPin l)) /\
    (u32 (currentTime - lastBlinkTime l) < currentInterval l -> l' = l).
Proof.
  intros its t l l'.
  assert (H : ledInvariant l).
  { apply ledRun_invariant. unfold ledInvariant. simpl. tauto. }
  destruct H as (Hp & Hoff & Hi). unfold l', blinkStep.
  destruct (blinkingActive l) eqn:Eb; cbn [andb].
  - destruct (Z.gtb_spec (currentInterval l) 0) as [Hpos | Hnpos].
    + destruct (Z.geb_spec (u32 (t - lastBlinkTime l)) (currentInterval l))
        as [Hge | Hlt].
      * cbn [ledState lastBlinkTime alertLedPin]. split.
        -- intros _. split; [reflexivity|]. split.
           ++ simpl in Hi. lia.
           ++ split; [reflexivity|]. rewrite Hp. reflexivity.
        -- lia.
      * split; [intro H; exfalso; apply H; reflexivity | reflexivity].
    + split; [intro H; exfalso; apply H; reflexivity | reflexivity].
  - split; [intro H; exfalso; apply H; reflexivity | reflexivity].
Qed.

Lemma led_toggles_no_faster_than_interval_witness :
  blinkStep 150 (ledRun [(Some (mkAlertLedData 4 true true), 100, 100)] ledBoot)
    = ledRun [(Some (mkAlertLedData 4 true true), 100, 100)] ledBoot.
Proof.
  apply (led_toggles_no_faster_than_interval
           [(Some (mkAlertLedData 4 true true), 100, 100)] 150).
  vm_compute. reflexivity.
Defined.

(** The commands of the motion task at the LED task.  Every command of an
    iteration has a rate within [0, 4].  The iteration that receives one
    with a positive rate blinks at the interval of the rate, which is
    [active] for the regular command; and every command of an iteration
    that ends stopped switches the LED off. *)
Theorem engine_commands_at_led :
  forall (t : Z) (s : System) (a : AlertLedData) (tr : Z) (l : LedTask),
    In a (alertCommands (snd (motionDetectionTask_iteration t s))) ->
    0 <= blinkRate a <= 4 /\
    (0 < blinkRate a ->
     blinkingActive (receiveCommand a tr l) = true /\
     currentInterval (receiveCommand a tr l) = getBlinkInterval (blinkRate a) /\
     100 <= currentInterval (receiveCommand a tr l) <= 1000) /\
    (alertSystemStopped
       (globals (fst (motionDetectionTask_iteration t s))) = true ->
     receiveCommand a tr l
       = mkLedTask false (lastBlinkTime l) (currentInterval l) false false).
Proof.
  intros t s a tr l Hin.
  unfold alertCommands in Hin. apply in_app_or in Hin.
  destruct (iteration_outputs t s) as (Hc & Hst & Hl & Hd & Ha & Hled & Hs).
  cbv zeta in *.
  destruct Hin as [Hin | [<- | []]].
  - (* the stop command *)
    rewrite Hs in Hin. apply stop_command in Hin. subst a.
    cbn [blinkRate]. split; [lia|]. split; [lia|]. intros _. reflexivity.
  - rewrite Ha, Hst. set (g := afterEvents t (globals s)) in *.
    cbn [blinkRate].
    destruct (alertSystemStopped g) eqn:Est; cbn [negb andb].
    + split; [lia|]. split; [lia|]. intros _. reflexivity.
    + pose proof (blinkRate_range (motionPersistenceCounter g)
                    (currentTemperature g) g) as [Hr Hpos].
      set (rate := fst (calculateBlinkRate _ _ _)) in *.
      split; [exact Hr|]. split; [|intro H; discriminate H].
      intro H0. unfold receiveCommand. cbn [active blinkRate forceUpdate].
      unfold MIN_COUNTER_FOR_ALERT.
      assert (E1 : (motionPersistenceCounter g >=? 1) = true)
        by (rewrite Z.geb_leb; apply Z.leb_le; apply Hpos; lia).
      assert (E2 : (rate >? 0) = true) by (apply gtb_true; lia).
      rewrite E1, E2. cbn [andb].
      assert (K : 100 <= getBlinkInterval rate <= 1000).
      { destruct (getBlinkInterval_cases rate)
          as [[_ ->] | [[_ ->] | [[_ ->] | [[_ ->] | [? _]]]]]; lia. }
      destruct (negb (rate =? lastBlinkRate s) || false);
        cbn [blinkingActive currentInterval]; repeat split; lia.
Qed.

Lemma engine_commands_at_led_witness :
  receiveCommand (mkAlertLedData 0 false true) 7 (mkLedTask true 0 100 true true)
    = mkLedTask false 0 100 false false.
Proof.
  destruct (engine_commands_at_led 20 userStopped
              (mkAlertLedData 0 false true) 7
              (mkLedTask true 0 100 true true)) as (_ & _ & H).
  - vm_compute. left. reflexivity.
  - apply H. vm_compute. reflexivity.
Defined.

(** ** The display task *)

Lemma statusMessage_cases (g : Globals) (rate : Z) :
  In (statusMessage g rate)
    ["ALERT STOPPED"; "No Motion"; "CRITICAL HOT"; "HIGH ALERT";
     "MEDIUM ALERT"; "LOW ALERT"; "Motion Brief"]%string.
Proof.
  unfold statusMessage.
  repeat match goal with
  | |- context [if ?b then _ else _] => destruct b
  end; simpl; tauto.
Qed.

(** The cut to 10 characters keeps the status messages apart: two messages
    of the motion task that show the same status are the same message. *)
Theorem shortStatus_keeps_messages_apart :
  forall (g1 g2 : Globals) (rate1 rate2 : Z),
    shortStatus (statusMessage g1 rate1) = shortStatus (statusMessage g2 rate2) ->
    statusMessage g1 rate1 = statusMessage g2 rate2.
Proof.
  intros g1 g2 rate1 rate2.
  pose proof (statusMessage_cases g1 rate1) as H1.
  pose proof (statusMessage_cases g2 rate2) as H2.
  simpl in H1, H2.
  destruct H1 as [<- | [<- | [<- | [<- | [<- | [<- | [<- | []]]]]]]];
  destruct H2 as [<- | [<- | [<- | [<- | [<- | [<- | [<- | []]]]]]]];
    vm_compute; intro H; try reflexivity; discriminate H.
Qed.

Lemma shortStatus_keeps_messages_apart_witness :
  statusMessage initialGlobals 0 = statusMessage initialGlobals 3.
Proof.
  apply (shortStatus_keeps_messages_apart initialGlobals initialGlobals 0 3).
  reflexivity.
Defined.

Lemma length_append (a b : string) :
  String.length (String.append a b) = (String.length a + String.length b)%nat.
Proof.
  induction a as [|c a IH]; simpl; [reflexivity | rewrite IH; reflexivity].
Qed.

Lemma decimal_length (n : Z) :
  0 <= n <= 20 -> (String.length (decimal n) <= 2)%nat.
Proof.
  intro H. destruct n as [|p|p]; [vm_compute; lia | | lia].
  do 5 (try destruct p as [p|p|]); try lia; vm_compute; lia.
Qed.

(** What the display shows for the record of an iteration, in a run from
    boot, whatever the formatting of the temperature.  For a stopped system
    the two lines are "ALERT STOPPED" and "By User Button".  Otherwise the
    first line is the status cut to 10 characters, a space, the temperature
    and "C", so that it fits the 16 columns when the temperature prints in 4
    characters or fewer; the second line is "C:" and the counter, followed
    by " BTN!" when the counter is above the stop threshold, the test of the
    button interrupt, and by " L" and the level otherwise, and it never
    takes more than 9 columns. *)
Theorem display_of_iteration :
  forall (formatTemperature : float -> string) (start t : Z)
         (evs : list Event),
    let s := run evs (bootSystem start) in
    let r := motionDetectionTask_iteration t s in
    let d := motionData (snd r) in
    let g' := globals (fst r) in
    let lines := displayLines formatTemperature d g' in
    (alertSystemStopped g' = true ->
     lines = ("ALERT STOPPED"%string, "By User Button"%string)) /\
    (alertSystemStopped g' = false ->
     fst lines
       = String.append (shortStatus (message d))
           (String.append " "
              (String.append (formatTemperature (currentTemperature g')) "C")) /\
     (String.length (fst lines)
        <= 12 + String.length (formatTemperature (currentTemperature g')))%nat /\
     (motionPersistenceCounter g' > ALERT_STOP_THRESHOLD g' ->
      snd lines
        = String.append
            (String.append "C:" (decimal (motionPersistenceCounter g')))
            " BTN!") /\
     (motionPersistenceCounter g' <= ALERT_STOP_THRESHOLD g' ->
      snd lines
        = String.append
            (String.append "C:" (decimal (motionPersistenceCounter g')))
            (String.append " L" (decimal (lastBlinkRate (fst r))))) /\
     (String.length (snd lines) <= 9)%nat).
Proof.
  intros fmt start t evs. cbv zeta.
  set (s := run evs (bootSystem start)).
  destruct (iteration_outputs t s) as (Hc & Hst & Hl & Hd & _).
  cbv zeta in *.
  assert (Hinv : engineInvariant
                   (globals (fst (motionDetectionTask_iteration t s)))).
  { change (fst (motionDetectionTask_iteration t s))
      with (step (MotionTask t) s).
    apply step_invariant. apply run_invariant, boot_invariant. }
  destruct Hinv as [Hcr _].
  unfold counterInRange, MAX_PERSISTENCE_COUNTER in Hcr.
  assert (Etmp : currentTemperature
                   (globals (fst (motionDetectionTask_iteration t s)))
                 = currentTemperature (afterEvents t (globals s))).
  { rewrite iteration_globals, alertLevelOf_globals.
    destruct (alertSystemStopped (afterEvents t (globals s))); reflexivity. }
  rewrite Hl, Hd, Etmp. rewrite Hc in *. rewrite Hst.
  set (g := afterEvents t (globals s)) in *.
  unfold displayLines.
  cbn [data_alertSystemStopped message temperature persistenceCounter
       alertLevel].
  split.
  - intros ->. reflexivity.
  - intros Est. rewrite Est. cbn [fst snd].
    set (rate := fst (calculateBlinkRate (motionPersistenceCounter g)
                        (currentTemperature g) g)).
    assert (Hshort : (String.length (shortStatus (statusMessage g rate))
                      <= 10)%nat).
    { pose proof (statusMessage_cases g rate) as H. simpl in H.
      destruct H as [<- | [<- | [<- | [<- | [<- | [<- | [<- | []]]]]]]];
        vm_compute; lia. }
    pose proof (decimal_length (motionPersistenceCounter g) ltac:(lia)) as Lc.
    assert (Lr : (String.length (decimal rate) <= 2)%nat).
    { apply decimal_length.
      pose proof (blinkRate_range (motionPersistenceCounter g)
                    (currentTemperature g) g) as [Hr _].
      fold rate in Hr. lia. }
    split; [reflexivity|]. split.
    { rewrite !length_append. simpl String.length. lia. }
    set (thr := ALERT_STOP_THRESHOLD
                  (globals (fst (motionDetectionTask_iteration t s)))).
    destruct (motionPersistenceCounter g >? thr) eqn:Eb.
    + apply gtb_true in Eb. split; [intros _; reflexivity|].
      split; [intro H; lia|].
      rewrite !length_append. simpl String.length. lia.
    + apply gtb_false in Eb. split; [intro H; lia|].
      split; [intros _; reflexivity|].
      rewrite !length_append. simpl String.length. lia.
Qed.

Lemma display_of_iteration_witness :
  displayLines (fun _ => "25"%string)
    (motionData (snd (motionDetectionTask_iteration 20 userStopped)))
    (globals (fst (motionDetectionTask_iteration 20 userStopped)))
  = ("ALERT STOPPED"%string, "By User Button"%string).
Proof.
  unfold userStopped.
  destruct (display_of_iteration (fun _ => "25"%string) 0 20
              (motionBurst 5 ++ [StopButtonISR; MotionTask 0])) as (H & _).
  apply H. vm_compute. reflexivity.
Defined.

(** ** A stop lasts until the reboot *)

Lemma run_app (a b : list Event) :
  forall s, run (a ++ b) s = run b (run a s).
Proof.
  induction a as [|ev a IH]; intro s; simpl; [reflexivity | apply IH].
Qed.

Lemma run_stays_stopped (later : list Event) :
  forall s, reachable s ->
            alertSystemStopped (globals s) = true ->
            alertSystemStopped (globals (run later s)) = true.
Proof.
  induction later as [|ev later IH]; intros s Hr Hst; simpl.
  - exact Hst.
  - apply IH.
    + apply step_reachable, Hr.
    + apply stopped_system_stays_stopped; assumption.
Qed.

(** Once a run from boot has stopped the alerts, no later sequence of
    interrupts and task iterations turns them back on: the system stays
    stopped with the counter at 0, whatever motion is detected, and a press
    of the button is ignored by the interrupt.  The re-arm of the decrement
    block needs a stopped system with a positive counter, which no run
    reaches. *)
Theorem stop_is_permanent :
  forall (start : Z) (evs later : list Event),
    alertSystemStopped (globals (run evs (bootSystem start))) = true ->
    let g := globals (run (evs ++ later) (bootSystem start)) in
    alertSystemStopped g = true /\
    motionPersistenceCounter g = 0 /\
    stopButtonISR g = g.
Proof.
  intros start evs later Hst g.
  assert (Hs : alertSystemStopped g = true).
  { unfold g. rewrite run_app. apply run_stays_stopped; [|exact Hst].
    exists start, evs. reflexivity. }
  assert (Hinv : engineInvariant g)
    by (apply run_invariant, boot_invariant).
  assert (Hthr : stopThresholdInRange g).
  { apply run_stop_threshold. unfold stopThresholdInRange. simpl. lia. }
  destruct Hinv as [_ Hz]. specialize (Hz Hs).
  unfold stopThresholdInRange in Hthr.
  split; [exact Hs|]. split; [exact Hz|].
  unfold stopButtonISR.
  assert (E : (motionPersistenceCounter g >? ALERT_STOP_THRESHOLD g) = false)
    by (apply gtb_false; lia).
  rewrite E. reflexivity.
Qed.

Lemma stop_is_permanent_witness :
  alertSystemStopped
    (globals
       (run ((motionBurst 5 ++ [StopButtonISR; MotionTask 0])
             ++ (motionBurst 3 ++ [MotionTask 60000]))
          (bootSystem 0))) = true.
Proof.
  destruct (stop_is_permanent 0
              (motionBurst 5 ++ [StopButtonISR; MotionTask 0])
              (motionBurst 3 ++ [MotionTask 60000])) as (H & _).
  - vm_compute. reflexivity.
  - exact H.
Defined.

(** ** A pending press of the button *)

(** The iteration that finds a press pending clears the flag and judges the
    press anew, at the counter and the threshold of that moment.  Above the
    threshold the iteration ends stopped with counter 0, a pending motion
    interrupt is left pending, the status LED is off, and two commands go
    to the LED task, the stop command and the regular one, both
    [{0, false, true}].  At or below the threshold, which the counter can
    reach after the interrupt accepted the press when a cooler reading
    raises the threshold, the press is dropped: an active system stays
    active and no stop command is sent. *)
Theorem pending_press_judged_by_iteration :
  forall (t : Z) (s : System),
    stopButtonPressed (globals s) = true ->
    let r := motionDetectionTask_iteration t s in
    let g' := globals (fst r) in
    stopButtonPressed g' = false /\
    (motionPersistenceCounter (globals s) > ALERT_STOP_THRESHOLD (globals s) ->
     alertSystemStopped g' = true /\
     motionPersistenceCounter g' = 0 /\
     pirTriggered g' = pirTriggered (globals s) /\
     statusLed (snd r) = false /\
     alertCommands (snd r)
       = [mkAlertLedData 0 false true; mkAlertLedData 0 false true]) /\
    (motionPersistenceCounter (globals s) <= ALERT_STOP_THRESHOLD (globals s) ->
     alertSystemStopped (globals s) = false ->
     alertSystemStopped g' = false /\ stopAlert (snd r) = []).
Proof.
  intros t s Hp. cbv zeta.
  destruct (iteration_outputs t s) as (Hc & Hst & Hl & Hd & Ha & Hled & Hs).
  cbv zeta in *. unfold alertCommands.
  rewrite Hc, Hst, Hled, Hs, Ha, iteration_globals, alertLevelOf_globals.
  unfold afterEvents, handleStopButton. rewrite Hp.
  cbn [motionPersistenceCounter ALERT_STOP_THRESHOLD set_stopButtonPressed].
  destruct (motionPersistenceCounter (globals s) >? ALERT_STOP_THRESHOLD (globals s))
    eqn:E.
  - apply gtb_true in E. cbn [fst snd].
    rewrite handlePirInterrupt_stopped by reflexivity.
    unfold counterDecrementCycle.
    destruct (updateDue t _); [destruct (pirSilent t _)|];
      cbn; rewrite orb_true_r; (split; [reflexivity|]);
      (split; [|intro H; lia]); intros _; repeat split.
  - apply gtb_false in E. cbn [fst snd].
    set (g1 := set_stopButtonPressed false (globals s)).
    assert (K : forall g, stopButtonPressed g = false ->
                stopButtonPressed
                  (counterDecrementCycle t (handlePirInterrupt t g)) = false).
    { intros g Hg. unfold counterDecrementCycle, handlePirInterrupt.
      destruct g as [pir stop lp c lu st tmp hum val thr]. simpl in *.
      repeat match goal with
      | |- context [if ?b then _ else _] => destruct b; simpl
      end; exact Hg. }
    assert (A : forall g, alertSystemStopped g = false ->
                alertSystemStopped
                  (counterDecrementCycle t (handlePirInterrupt t g)) = false).
    { intros g Hg. unfold counterDecrementCycle, handlePirInterrupt.
      destruct g as [pir stop lp c lu st tmp hum val thr]. simpl in *.
      repeat match goal with
      | |- context [if ?b then _ else _] => destruct b; simpl
      end; (exact Hg || reflexivity). }
    split.
    + pose proof (K g1 eq_refl) as Kg.
      set (g2 := counterDecrementCycle t (handlePirInterrupt t g1)) in *.
      destruct (alertSystemStopped g2); [exact Kg|].
      destruct g2. exact Kg.
    + split; [intro H; lia|]. intros _ Hact.
      split; [|reflexivity]. apply A. exact Hact.
Qed.

Lemma pending_press_judged_by_iteration_witness :
  alertSystemStopped
    (globals
       (fst (motionDetectionTask_iteration 100 (step StopButtonISR hotCar))))
    = true /\
  stopAlert
    (snd (motionDetectionTask_iteration 100
            (run [StopButtonISR;
                  TemperatureTask 3000 (Some (celsius 20, celsius 50))]
               (mkSystem
                  (set_ALERT_STOP_THRESHOLD 2
                     (set_motionPersistenceCounter 3
                        (set_environment (celsius 35) (celsius 50)
                           initialGlobals))) 2 0)))) = [].
Proof.
  split.
  - destruct (pending_press_judged_by_iteration 100 (step StopButtonISR hotCar))
      as (_ & H & _); [reflexivity|].
    apply H. vm_compute. reflexivity.
  - destruct (pending_press_judged_by_iteration 100
                (run [StopButtonISR;
                      TemperatureTask 3000 (Some (celsius 20, celsius 50))]
                   (mkSystem
                      (set_ALERT_STOP_THRESHOLD 2
                         (set_motionPersistenceCounter 3
                            (set_environment (celsius 35) (celsius 50)
                               initialGlobals))) 2 0)))
      as (_ & _ & H); [vm_compute; reflexivity|].
    apply H; vm_compute; [intro E; discriminate E | reflexivity].
Defined.

(** ** The stop threshold and the temperature *)

Lemma afterEvents_environment (t : Z) (g : Globals) :
  currentTemperature (afterEvents t g) = currentTemperature g.
Proof.
  unfold afterEvents, counterDecrementCycle, handlePirInterrupt,
    handleStopButton.
  destruct g as [pir stop lp c lu st tmp hum val thr]. simpl.
  destruct stop; simpl; [destruct (c >? thr); simpl|];
    repeat match goal with
    | |- context [if ?b then _ else _] => destruct b; simpl
    end; reflexivity.
Qed.

Lemma afterEvents_stays_active (t : Z) (g : Globals) :
  alertSystemStopped g = false ->
  motionPersistenceCounter g <= ALERT_STOP_THRESHOLD g ->
  alertSystemStopped (afterEvents t g) = false.
Proof.
  intros Hst Hc. unfold afterEvents, counterDecrementCycle,
    handlePirInterrupt, handleStopButton.
  destruct g as [pir stop lp c lu st tmp hum val thr]. simpl in *. subst st.
  assert (E : (c >? thr) = false) by (apply gtb_false; lia).
  destruct stop; simpl; rewrite ?E; simpl;
    repeat match goal with
    | |- context [if ?b then _ else _] => destruct b; simpl
    end; reflexivity.
Qed.

Lemma step_tracks_temperature (ev : Event) (s : System) :
  ALERT_STOP_THRESHOLD (globals s)
    = stopThresholdAt (currentTemperature (globals s)) ->
  ALERT_STOP_THRESHOLD (globals (step ev s))
    = stopThresholdAt (currentTemperature (globals (step ev s))).
Proof.
  intro H. destruct ev as [now | | t | t r |]; simpl.
  - exact H.
  - unfold stopButtonISR. destruct (_ >? _); exact H.
  - rewrite iteration_globals, alertLevelOf_globals.
    destruct (alertSystemStopped (afterEvents t (globals s))).
    + rewrite afterEvents_stop_threshold, afterEvents_environment. exact H.
    + reflexivity.
  - unfold temperatureTask_iteration. reflexivity.
  - unfold loop_report. reflexivity.
Qed.

Lemma run_tracks_temperature (evs : list Event) :
  forall s,
    ALERT_STOP_THRESHOLD (globals s)
      = stopThresholdAt (currentTemperature (globals s)) ->
    ALERT_STOP_THRESHOLD (globals (run evs s))
      = stopThresholdAt (currentTemperature (globals (run evs s))).
Proof.
  induction evs as [|ev evs IH]; intros s H; simpl.
  - exact H.
  - apply IH, step_tracks_temperature, H.
Qed.

Lemma run_from_initial_threshold (evs : list Event) :
  forall s,
    ALERT_STOP_THRESHOLD (globals s) = 5 ->
    motionPersistenceCounter (globals s) = 0 ->
    alertSystemStopped (globals s) = false ->
    ALERT_STOP_THRESHOLD (globals (run evs s))
      = stopThresholdAt (currentTemperature (globals (run evs s))) \/
    (ALERT_STOP_THRESHOLD (globals (run evs s)) = 5 /\
     Forall (fun ev => ev = StopButtonISR \/ exists now, ev = MotionISR now)
       evs).
Proof.
  induction evs as [|ev evs IH]; intros s Ht Hc Hst.
  - right. split; [exact Ht | constructor].
  - cbn [run].
    destruct ev as [now | | t | t r |].
    + destruct (IH (step (MotionISR now) s)) as [H | [H1 H2]];
        try assumption; [left; exact H|].
      right. split; [exact H1|]. constructor; [right; exists now; reflexivity|].
      exact H2.
    + assert (E : step StopButtonISR s = onGlobals (fun g => g) s).
      { simpl. unfold onGlobals, stopButtonISR. rewrite Ht, Hc. reflexivity. }
      destruct (IH (step StopButtonISR s)) as [H | [H1 H2]];
        try (rewrite E; assumption); [left; exact H|].
      right. split; [exact H1|]. constructor; [left; reflexivity | exact H2].
    + left. apply run_tracks_temperature. simpl.
      rewrite iteration_globals, alertLevelOf_globals.
      rewrite afterEvents_stays_active by (try assumption; lia).
      reflexivity.
    + left. apply run_tracks_temperature. simpl.
      unfold temperatureTask_iteration. reflexivity.
    + left. apply run_tracks_temperature. simpl.
      unfold loop_report. reflexivity.
Qed.

(** In a run from boot the stop threshold in force is the one of the
    current temperature, [max 2 (5 * factor)], as soon as one task iteration
    or status report has run; until then, with nothing but interrupts since
    boot, it has its initial value 5. *)
Theorem stop_threshold_tracks_temperature :
  forall (start : Z) (evs : list Event),
    let g := globals (run evs (bootSystem start)) in
    ALERT_STOP_THRESHOLD g = stopThresholdAt (currentTemperature g) \/
    (ALERT_STOP_THRESHOLD g = 5 /\
     Forall (fun ev => ev = StopButtonISR \/ exists now, ev = MotionISR now)
       evs).
Proof.
  intros start evs. cbv zeta.
  apply run_from_initial_threshold; reflexivity.
Qed.

(** ** Decay on a clock without motion *)

(** With no motion interrupt, no press pending and alerts active, run the
    motion task at times read from a clock that neither goes back nor
    wraps, starting when the last PIR trigger is no later than half a second
    after the last counter update: the counter ends at its start value minus
    the number of iterations in which the 6-second cycle was due, held at 0.
    No decrement is skipped for want of PIR silence. *)
Theorem no_motion_decay_on_clock :
  forall (ts : list Z) (s : System),
    alertSystemStopped (globals s) = false ->
    pirTriggered (globals s) = false ->
    stopButtonPressed (globals s) = false ->
    0 <= motionPersistenceCounter (globals s) <= 255 ->
    0 <= lastPirTrigger (globals s) <= lastCounterUpdate (globals s) + 500 ->
    0 <= lastCounterUpdate (globals s) ->
    onClock (lastCounterUpdate (globals s)) ts ->
    motionPersistenceCounter (globals (run (map MotionTask ts) s))
      = Z.max 0 (motionPersistenceCounter (globals s) - decayTicks ts s).
Proof.
  induction ts as [|t ts IH]; intros s Hst Hpir Hstop Hc Hp Hu Hclk.
  - simpl. lia.
  - destruct Hclk as [Ht Hclk].
    assert (Hnow : updateDue t (globals s) = true ->
                   pirSilent t (globals s) = true).
    { unfold updateDue, pirSilent, u32, COUNTER_UPDATE_INTERVAL,
        PIR_DETECTION_WINDOW.
      rewrite !Z.geb_leb, !Z.leb_le.
      rewrite (Z.mod_small (t - lastCounterUpdate (globals s))) by lia.
      intro Hdue. rewrite Z.mod_small by lia. lia. }
    destruct (quiet_iteration t s Hst Hpir Hstop Hc Hnow)
      as (Hst' & Hpir' & Hstop' & Hc').
    destruct (quiet_iteration_clock t s Hst Hpir Hstop) as (Hp' & Hu').
    change (run (map MotionTask (t :: ts)) s)
      with (run (map MotionTask ts) (step (MotionTask t) s)).
    change (decayTicks (t :: ts) s)
      with ((if updateDue t (globals s) then 1 else 0)
            + decayTicks ts (step (MotionTask t) s)).
    pose proof (decayTicks_nonneg ts (step (MotionTask t) s)) as Hk.
    rewrite IH; try assumption.
    + rewrite Hc'. destruct (updateDue t (globals s)); lia.
    + rewrite Hc'. destruct (updateDue t (globals s)); lia.
    + rewrite Hp'. destruct Hu' as [-> | ->]; lia.
    + destruct Hu' as [-> | ->]; lia.
    + destruct Hu' as [E | E]; rewrite E; [|exact Hclk].
      destruct ts as [|t' ts']; [exact I|].
      destruct Hclk as [Ht' Hclk]. split; [lia | exact Hclk].
Qed.

Lemma no_motion_decay_on_clock_witness :
  motionPersistenceCounter
    (globals (run (map MotionTask [20; 6000; 6020; 12000; 18000]) quietFromTwo))
  = Z.max 0 (2 - 3).
Proof.
  apply (no_motion_decay_on_clock [20; 6000; 6020; 12000; 18000] quietFromTwo).
  - reflexivity.
  - reflexivity.
  - reflexivity.
  - simpl. lia.
  - simpl. lia.
  - simpl. lia.
  - simpl. lia.
Defined.

(** ** The interpolation *)

(** Between 22 C and 30 C the factor is computed without any rounding.  A
    temperature in that zone is [m * 2^-19] and the factor is [N * 2^-24]
    with [N = 2 * (19922944 - m)], which is [1 - (t - 22) / 16] as a real
    number; it lies strictly between 0.5 and 1. *)
Theorem interpolated_factor_is_exact :
  forall t : float,
    gt t COMFORTABLE_TEMP = true ->
    ge t HOT_TEMP_THRESHOLD = false ->
    exists m N : positive,
      t = S754_finite false m (-19) /\
      adjustmentFactor t = S754_finite false N (-24) /\
      Zpos N = 2 * (19922944 - Zpos m) /\
      8388608 < Zpos N < 16777216.
Proof.
  intros t Hg Hh.
  destruct (adjustmentFactor_zones t)
    as [(H & _) | [(_ & H & _) | [(_ & H & _)
        | (_ & _ & m & N & Et & Hm & HN & E)]]].
  - apply critical_is_hot in H. congruence.
  - congruence.
  - congruence.
  - exists m, N. repeat split; try assumption; lia.
Qed.

Lemma interpolated_factor_is_exact_witness :
  exists m N : positive,
    celsius 26 = S754_finite false m (-19) /\
    adjustmentFactor (celsius 26) = S754_finite false N (-24) /\
    Zpos N = 2 * (19922944 - Zpos m) /\
    8388608 < Zpos N < 16777216.
Proof.
  apply (interpolated_factor_is_exact (celsius 26)); vm_compute; reflexivity.
Defined.
